(** * Chat-Museum: the WhatsApp transcript parser ([whatsapp_parser.py])

    A shallow embedding of [parse_whatsapp_chat] (the line classifier, the
    header decoder, the message assembler and the data frame returned) and
    of [detect_script], with the properties of the specification proved or
    refuted on it.

    Python strings are sequences of Unicode code points: a character is a
    code point ([N]) and a string is a list of them.  The regular expression
    of the parser is kept as a regular expression and run by a backtracking
    matcher; the float arithmetic of [detect_script] is binary64 with
    round-to-nearest-even, kept exact as a dyadic number. *)

From Stdlib Require Import Ascii String.
From Stdlib Require Import List NArith ZArith Bool Lia.
From Stdlib Require SpecFloat.
Import ListNotations.

Set Implicit Arguments.

(** ** Strings of code points *)

Definition char := N.
Definition str := list char.

(** The code points of an ASCII literal, and of one ASCII character. *)
Definition u (s : string) : str := map N_of_ascii (list_ascii_of_string s).
Arguments u s%_string.

Definition ch (a : ascii) : char := N_of_ascii a.
Arguments ch a%_char.

Local Open Scope N_scope.

Module Unicode.

(** [str.isspace] of one character, which is also what [\s] matches in a
    [str] pattern and what [str.strip()] removes. *)
Definition isspace (c : char) : bool :=
  ((0x09 <=? c) && (c <=? 0x0D)) || ((0x1C <=? c) && (c <=? 0x20))
  || (c =? 0x85) || (c =? 0xA0) || (c =? 0x1680)
  || ((0x2000 <=? c) && (c <=? 0x200A))
  || (c =? 0x2028) || (c =? 0x2029) || (c =? 0x202F) || (c =? 0x205F)
  || (c =? 0x3000).

(** The code points of the digit zero of every decimal-digit block
    (general category Nd, Unicode 14): each block is ten consecutive code
    points, zero to nine. *)
Definition decimal_zeros : list char :=
  [ 0x30; 0x660; 0x6f0; 0x7c0; 0x966; 0x9e6; 0xa66; 0xae6; 0xb66; 0xbe6;
    0xc66; 0xce6; 0xd66; 0xde6; 0xe50; 0xed0; 0xf20; 0x1040; 0x1090;
    0x17e0; 0x1810; 0x1946; 0x19d0; 0x1a80; 0x1a90; 0x1b50; 0x1bb0;
    0x1c40; 0x1c50; 0xa620; 0xa8d0; 0xa900; 0xa9d0; 0xa9f0; 0xaa50;
    0xabf0; 0xff10; 0x104a0; 0x10d30; 0x11066; 0x110f0; 0x11136; 0x111d0;
    0x112f0; 0x11450; 0x114d0; 0x11650; 0x116c0; 0x11730; 0x118e0;
    0x11950; 0x11c50; 0x11d50; 0x11da0; 0x16a60; 0x16ac0; 0x16b50;
    0x1d7ce; 0x1d7d8; 0x1d7e2; 0x1d7ec; 0x1d7f6; 0x1e140; 0x1e2f0;
    0x1e950; 0x1fbf0 ].

Definition in_block (c z : char) : bool := (z <=? c) && (c <=? z + 9).

(** [str.isdecimal] of one character, which is what [\d] matches in a
    [str] pattern. *)
Definition isdecimal (c : char) : bool :=
  existsb (in_block c) decimal_zeros.

(** The value of a decimal digit, as [int] reads it. *)
Definition digit_value (c : char) : option N :=
  option_map (fun z => c - z) (find (in_block c) decimal_zeros).

(** [int(s)] on a string of decimal digits ([None] stands for the
    [ValueError]). *)
Fixpoint int_of_digits (acc : N) (s : str) : option N :=
  match s with
  | [] => Some acc
  | c :: s' =>
      match digit_value c with
      | Some d => int_of_digits (10 * acc + d) s'
      | None => None
      end
  end.

Definition int (s : str) : option N :=
  match s with
  | [] => None
  | _ => int_of_digits 0 s
  end.

(** [str.lower] on the letters the time format uses. *)
Definition lower (c : char) : char :=
  if (0x41 <=? c) && (c <=? 0x5A) then c + 32 else c.

End Unicode.

(** [str.strip()]: leading and trailing whitespace removed. *)
Fixpoint lstrip (s : str) : str :=
  match s with
  | c :: s' => if Unicode.isspace c then lstrip s' else s
  | [] => []
  end.

Definition rstrip (s : str) : str := rev (lstrip (rev s)).

Definition strip (s : str) : str := rstrip (lstrip s).

(** Truth value of a string: non-empty. *)
Definition truthy (s : str) : bool :=
  match s with [] => false | _ => true end.

(** ** Regular expressions, as the [re] module runs them *)

Module Re.

Inductive regex : Type :=
| Bol                                   (* ^ *)
| Eol                                   (* $ *)
| Cls (p : char -> bool)                (* one character of a class *)
| Rep (p : char -> bool) (lo : nat) (hi : option nat)
                                        (* greedy p{lo,hi}; p+ is p{1,} *)
| Cat (r1 r2 : regex)
| Alt (r1 r2 : regex)                   (* r1|r2, r1 tried first *)
| Grp (r : regex).                      (* a capturing group *)

Definition under (hi : option nat) (n : nat) : bool :=
  match hi with
  | Some h => (n <? h)%nat
  | None => true
  end.

Definition insert_at (n : nat) (w : str) (caps : list str) : list str :=
  firstn n caps ++ w :: skipn n caps.

Section Run.

Variable A : Type.

(** Greedy repetition: take as many characters as allowed, and give
    them back one at a time while the rest of the pattern fails. *)
Fixpoint greedy (p : char -> bool) (lo : nat) (hi : option nat)
         (n pos : nat) (s : str) (k : nat -> str -> option A) : option A :=
  match s with
  | c :: s' =>
      if p c && under hi n then
        match greedy p lo hi (S n) (S pos) s' k with
        | Some x => Some x
        | None => if (lo <=? n)%nat then k pos s else None
        end
      else if (lo <=? n)%nat then k pos s else None
  | [] => if (lo <=? n)%nat then k pos s else None
  end.

(** The backtracking matcher, in continuation-passing style: [pos] is
    the offset of [s] in the subject, [caps] the groups closed so far
    (numbered by their opening parenthesis), [k] the rest of the
    pattern. *)
Fixpoint run (r : regex) (pos : nat) (s : str) (caps : list str)
         (k : nat -> str -> list str -> option A) : option A :=
  match r with
  | Bol => if (pos =? 0)%nat then k pos s caps else None
  | Eol =>
      match s with
      | [] => k pos s caps
      | [c] => if c =? 10 then k pos s caps else None
      | _ => None
      end
  | Cls p =>
      match s with
      | c :: s' => if p c then k (S pos) s' caps else None
      | [] => None
      end
  | Rep p lo hi => greedy p lo hi 0 pos s (fun pos' s' => k pos' s' caps)
  | Cat r1 r2 =>
      run r1 pos s caps (fun pos' s' caps' => run r2 pos' s' caps' k)
  | Alt r1 r2 =>
      match run r1 pos s caps k with
      | Some x => Some x
      | None => run r2 pos s caps k
      end
  | Grp r1 =>
      run r1 pos s caps
        (fun pos' s' caps' =>
           k pos' s' (insert_at (length caps) (firstn (pos' - pos) s) caps'))
  end.

End Run.

(** [re.match(r, s)]: the match is anchored at the start of [s]; the
    result is its groups and the offset where it ends. *)
Definition match_ (r : regex) (s : str) : option (list str * nat) :=
  run r 0 s [] (fun pos' _ caps => Some (caps, pos')).

(** [re.fullmatch(r, s)] is a match: the whole of [s] is matched. *)
Definition fullmatch (r : regex) (s : str) : bool :=
  match run r 0 s []
          (fun _ rest _ => match rest with [] => Some tt | _ => None end)
  with
  | Some _ => true
  | None => false
  end.

(** Character classes of the patterns. *)
Definition lit (c : char) : regex := Cls (N.eqb c).
Definition digit : char -> bool := Unicode.isdecimal.       (* \d *)
Definition space : char -> bool := Unicode.isspace.         (* \s *)
Definition dot (c : char) : bool := negb (c =? 10).         (* . *)
Definition one_of (l : str) (c : char) : bool := existsb (N.eqb c) l.
Definition none_of (l : str) (c : char) : bool := negb (one_of l c).
Definition range (a b : char) (c : char) : bool := (a <=? c) && (c <=? b).

(** What a pattern may match, whatever the order of the attempts:
    [matches r pos w rest gs] says that [r], at offset [pos], matches [w]
    followed by [rest] and captures [gs]. *)
Inductive matches : regex -> nat -> str -> str -> list str -> Prop :=
| m_bol rest : matches Bol 0 [] rest []
| m_eol pos rest : rest = [] \/ rest = [10] -> matches Eol pos [] rest []
| m_cls p pos c rest : p c = true -> matches (Cls p) pos [c] rest []
| m_rep p lo hi pos w rest :
    forallb p w = true -> (lo <= length w)%nat ->
    (forall h, hi = Some h -> (length w <= h)%nat) ->
    matches (Rep p lo hi) pos w rest []
| m_cat r1 r2 pos w1 w2 rest g1 g2 :
    matches r1 pos w1 (w2 ++ rest) g1 ->
    matches r2 (pos + length w1) w2 rest g2 ->
    matches (Cat r1 r2) pos (w1 ++ w2) rest (g1 ++ g2)
| m_alt_l r1 r2 pos w rest gs :
    matches r1 pos w rest gs -> matches (Alt r1 r2) pos w rest gs
| m_alt_r r1 r2 pos w rest gs :
    matches r2 pos w rest gs -> matches (Alt r1 r2) pos w rest gs
| m_grp r pos w rest gs :
    matches r pos w rest gs -> matches (Grp r) pos w rest (w :: gs).

(** A pattern without groups. *)
Fixpoint groupless (r : regex) : bool :=
  match r with
  | Cat r1 r2 | Alt r1 r2 => groupless r1 && groupless r2
  | Grp _ => false
  | _ => true
  end.

(** [w] is in the language of [r]. *)
Definition in_lang (r : regex) (w : str) : Prop :=
  exists pos rest gs, matches r pos w rest gs.

End Re.

Declare Scope regex_scope.
Delimit Scope regex_scope with re.
Infix ">>" := Re.Cat (at level 60, right associativity) : regex_scope.

(** ** The line classifier *)

Section Pattern.

Import Re.
Local Open Scope regex_scope.

Let d12 := Rep digit 1 (Some 2%nat).       (* \d{1,2} *)
Let d2 := Rep digit 2 (Some 2%nat).        (* \d{2} *)
Let s1 := Cls space.                        (* \s *)

(** The four groups: \d{1,2}/\d{1,2}/\d{2}, \d{1,2}:\d{2}\s[ap]m,
    [^:]+ and .+ *)
Definition date_re : regex :=
  d12 >> lit (ch "/") >> d12 >> lit (ch "/") >> d2.

Definition time_re : regex :=
  d12 >> lit (ch ":") >> d2 >> s1 >> Cls (one_of (u "ap")) >> lit (ch "m").

Definition sender_re : regex := Rep (none_of (u ":")) 1 None.

Definition text_re : regex := Rep dot 1 None.

(** [pattern]:
    ^(\d{1,2}/\d{1,2}/\d{2}),\s(\d{1,2}:\d{2}\s[ap]m)\s-\s([^:]+):\s(.+)$ *)
Definition pattern : regex :=
  Bol
  >> Grp date_re >> lit (ch ",") >> s1
  >> Grp time_re >> s1 >> lit (ch "-") >> s1
  >> Grp sender_re >> lit (ch ":") >> s1
  >> Grp text_re
  >> Eol.

End Pattern.

(** [match.groups()] of the four-group pattern. *)
Definition groups : Type := str * str * str * str.

(** [re.match(pattern, s)] followed by [match.groups()]. *)
Definition header_match (s : str) : option groups :=
  match Re.match_ pattern s with
  | Some ([date_str; time_str; sender; message_text], _) =>
      Some (date_str, time_str, sender, message_text)
  | _ => None
  end.

(** The test of the loop: [re.match(pattern, line.strip())] is a match. *)
Definition is_header (line : str) : bool :=
  match header_match (strip line) with
  | Some _ => true
  | None => false
  end.

(** ** The header decoder: [datetime.strptime] *)

Record DateTime : Type := mkDateTime
  { year : N; month : N; day : N; hour : N; minute : N }.

Module Strptime.

Import Re.
Local Open Scope regex_scope.

Section Format.

Let c (a : ascii) : regex := lit (ch a).
Let r (a b : ascii) : regex := Cls (range (ch a) (ch b)).
(** A letter under [re.IGNORECASE]. *)
Let ci (a : ascii) : regex := Cls (fun x => Unicode.lower x =? ch a).

(** The pattern the standard library compiles (with [re.IGNORECASE]) for
    the format ["%d/%m/%y, %I:%M %p"] under the default locale:
    (?P<d>3[0-1]|[1-2]\d|0[1-9]|[1-9]| [1-9])/(?P<m>1[0-2]|0[1-9]|[1-9])
    /(?P<y>\d\d),\s+(?P<I>1[0-2]|0[1-9]|[1-9]):(?P<M>[0-5]\d|\d)\s+
    (?P<p>am|pm) *)
Definition format_regex : regex :=
  Grp (Alt (c "3" >> r "0" "1")
      (Alt (r "1" "2" >> Cls digit)
      (Alt (c "0" >> r "1" "9")
      (Alt (r "1" "9") (c " " >> r "1" "9")))))
  >> c "/"
  >> Grp (Alt (c "1" >> r "0" "2") (Alt (c "0" >> r "1" "9") (r "1" "9")))
  >> c "/"
  >> Grp (Cls digit >> Cls digit)
  >> c "," >> Rep space 1 None
  >> Grp (Alt (c "1" >> r "0" "2") (Alt (c "0" >> r "1" "9") (r "1" "9")))
  >> c ":"
  >> Grp (Alt (r "0" "5" >> Cls digit) (Cls digit))
  >> Rep space 1 None
  >> Grp (Alt (ci "a" >> ci "m") (ci "p" >> ci "m")).

End Format.

Definition is_leap (y : N) : bool :=
  (y mod 4 =? 0) && (negb (y mod 100 =? 0) || (y mod 400 =? 0)).

Definition days_in_month (y m : N) : N :=
  if m =? 2 then (if is_leap y then 29 else 28)
  else if (m =? 4) || (m =? 6) || (m =? 9) || (m =? 11) then 30
  else 31.

(** [datetime.strptime(data_string, "%d/%m/%y, %I:%M %p")]; [None] stands
    for the [ValueError] it raises: no match, unconverted data left, or
    a day the month does not have. *)
Definition strptime (data_string : str) : option DateTime :=
  match match_ format_regex data_string with
  | Some ([gd; gm; gy; gI; gM; gp], end_) =>
      if negb (end_ =? length data_string)%nat then None else
      match Unicode.int (strip gd), Unicode.int gm, Unicode.int gy,
            Unicode.int gI, Unicode.int gM with
      | Some day, Some month, Some y2, Some h12, Some minute =>
          let year := if y2 <=? 68 then y2 + 2000 else y2 + 1900 in
          let ampm := map Unicode.lower gp in
          let hour :=
            if list_eq_dec N.eq_dec ampm (u "am")
            then (if h12 =? 12 then 0 else h12)
            else (if h12 =? 12 then h12 else h12 + 12) in
          if (1 <=? day) && (day <=? days_in_month year month)
          then Some (mkDateTime year month day hour minute)
          else None
      | _, _, _, _, _ => None
      end
  | _ => None
  end.

End Strptime.

(** ** The message assembler *)

(** The dictionary built for one message. *)
Record Message : Type := mkMessage
  { datetime : option DateTime;
    date : str;
    time : str;
    sender : str;
    message : str }.

(** [m['message'] = body]: the dictionary [m] with another body. *)
Definition with_message (m : Message) (body : str) : Message :=
  {| datetime := datetime m; date := date m; time := time m;
     sender := sender m; message := body |}.

Section Parser.

(** [datetime.strptime(_, "%d/%m/%y, %I:%M %p")] under [try]/[except]:
    [None] when it raises. *)
Variable strptime : str -> option DateTime.

(** The dictionary of a new message, from the groups of its header. *)
Definition new_message (g : groups) : Message :=
  let '(date_str, time_str, sender, message_text) := g in
  let datetime_str := date_str ++ u ", " ++ time_str in
  let dt := strptime datetime_str in
  {| datetime := dt;
     date := date_str;
     time := time_str;
     sender := strip sender;
     message := strip message_text |}.

(** [current_message['message'] += '\n' + line.strip()] *)
Definition append_line (m : Message) (line : str) : Message :=
  with_message m (message m ++ [ch "010"] ++ strip line).

(** The state of the loop: [current_message] and [messages]. *)
Definition state : Type := option Message * list Message.

(** [if current_message: messages.append(current_message)] *)
Definition flush (st : state) : list Message :=
  match fst st with
  | Some m => snd st ++ [m]
  | None => snd st
  end.

(** One iteration of [for line in lines]. *)
Definition loop_body (st : state) (line : str) : state :=
  match header_match (strip line) with
  | Some g => (Some (new_message g), flush st)
  | None =>
      match fst st with
      | Some m =>
          if truthy (strip line) then (Some (append_line m line), snd st)
          else st
      | None => st
      end
  end.

(** The loop over the lines, and the last message saved after it. *)
Definition parse_lines (lines : list str) : list Message :=
  flush (fold_left loop_body lines (None, [])).

End Parser.

(** [f.readlines()] of a file opened in text mode: ["\r\n"] and ["\r"]
    are read as ["\n"], and every line keeps its ["\n"]. *)
Fixpoint universal_newlines (s : str) : str :=
  match s with
  | 13 :: 10 :: s' => 10 :: universal_newlines s'
  | 13 :: s' => 10 :: universal_newlines s'
  | c :: s' => c :: universal_newlines s'
  | [] => []
  end.

Fixpoint split_keepends (cur : str) (s : str) : list str :=
  match s with
  | [] => match cur with [] => [] | _ => [rev cur] end
  | c :: s' =>
      if c =? 10 then rev (c :: cur) :: split_keepends [] s'
      else split_keepends (c :: cur) s'
  end.

Definition readlines (text : str) : list str :=
  split_keepends [] (universal_newlines text).

(** The list [messages] when the loop and its flush are done (line 70),
    on the decoded text of the file. *)
Definition messages (strptime : str -> option DateTime) (text : str)
  : list Message :=
  parse_lines strptime (readlines text).

(** ** The data frame: [pd.DataFrame(messages)] and the columns added *)

(** [date.toordinal()] and [date.weekday()], as the standard library
    computes them: the days before the year, the days before the month,
    and 0 for Monday. *)
Definition days_before_year (y : N) : N :=
  let y1 := y - 1 in y1 * 365 + y1 / 4 - y1 / 100 + y1 / 400.

Definition days_before_month (y m : N) : N :=
  fold_left N.add
            (map (fun k => Strptime.days_in_month y (N.of_nat k))
                 (seq 1 (N.to_nat m - 1)))
            0.

Definition toordinal (dt : DateTime) : N :=
  days_before_year (year dt) + days_before_month (year dt) (month dt)
  + day dt.

Definition weekday (dt : DateTime) : N := (toordinal dt + 6) mod 7.

(** [.dt.day_name()], in the default (English) locale. *)
Definition day_names : list string :=
  [ "Monday"; "Tuesday"; "Wednesday"; "Thursday"; "Friday"; "Saturday";
    "Sunday" ]%string.

Definition day_name (dt : DateTime) : str :=
  u (nth (N.to_nat (weekday dt)) day_names EmptyString).

(** [n] in decimal digits, on [width] places. *)
Fixpoint zero_padded (width : nat) (n : N) : str :=
  match width with
  | O => []
  | S w => zero_padded w (n / 10) ++ [ch "0" + n mod 10]
  end.

(** [.dt.strftime('%Y-%m')], for a year of four digits. *)
Definition strftime_Y_m (dt : DateTime) : str :=
  zero_padded 4 (year dt) ++ [ch "-"] ++ zero_padded 2 (month dt).

(** A row of the frame: the five values of the dictionary, and the five
    values lines 77-81 add.  In a frame the [None] of [datetime] is NaT,
    and [None] in an added column is the missing value pandas puts where
    the timestamp is NaT.  The numbers of [year], [month] and [hour] are
    kept as numbers, whether the column holds them as integers or, beside
    a missing value, as floats. *)
Record Row : Type := mkRow
  { cells : Message;
    col_year : option N;
    col_month : option N;
    col_year_month : option str;
    col_day_of_week : option str;
    col_hour : option N }.

Record DataFrame : Type := mkDataFrame
  { columns : list string;
    rows : list Row }.

Inductive exception : Type := AttributeError.

(** What the call gives: the frame returned, or the exception raised. *)
Inductive outcome : Type :=
| Returned (df : DataFrame)
| Raised (e : exception).

Definition message_keys : list string :=
  [ "datetime"; "date"; "time"; "sender"; "message" ]%string.

Definition added_columns : list string :=
  [ "year"; "month"; "year_month"; "day_of_week"; "hour" ]%string.

(** Lines 77-81 on one row. *)
Definition add_columns (m : Message) : Row :=
  {| cells := m;
     col_year := option_map year (datetime m);
     col_month := option_map month (datetime m);
     col_year_month := option_map strftime_Y_m (datetime m);
     col_day_of_week := option_map day_name (datetime m);
     col_hour := option_map hour (datetime m) |}.

Definition is_datetime (m : Message) : bool :=
  match datetime m with Some _ => true | None => false end.

(** Lines 73-82.  [pd.DataFrame([])] has no column, so that the test of
    line 76 fails and the empty frame is returned.  Otherwise the frame
    has the five keys as columns; the column [datetime] is of a datetime
    type as soon as one of its values is a datetime (every [None] is then
    NaT), and [.dt] gives the added columns; a column of [None] only keeps
    the type [object], and [.dt] raises [AttributeError] on line 77. *)
Definition data_frame (ms : list Message) : outcome :=
  match ms with
  | [] => Returned (mkDataFrame [] [])
  | _ :: _ =>
      if existsb is_datetime ms
      then Returned (mkDataFrame (message_keys ++ added_columns)
                                 (map add_columns ms))
      else Raised AttributeError
  end.

(** [parse_whatsapp_chat(file_path)], on the decoded text of the file.
    [strptime] stands for the call of line 50; the years it gives lie in
    1969..2068, inside what a datetime column holds. *)
Definition parse_whatsapp_chat (strptime : str -> option DateTime)
           (text : str) : outcome :=
  data_frame (messages strptime text).

(** ** The language classifier: [detect_script] *)

(** Binary64 numbers, as far as [detect_script] uses them: a true division
    of two integers, two decimal literals and comparisons.  A finite
    double is kept as the dyadic number [mant * 2 ^ expo]; the quotients
    formed here lie between [2^-1022] and 1, so that the exponent range
    of the format is never left. *)
Module Binary64.

Local Open Scope Z_scope.

Record float : Type := mk { mant : Z; expo : Z }.

(** [floor (log2 (a / b))] for positive [a] and [b]. *)
Definition ilog2_ratio (a b : Z) : Z :=
  let k := Z.log2 a - Z.log2 b in
  if b * 2 ^ Z.max 0 k <=? a * 2 ^ Z.max 0 (- k) then k else k - 1.

(** The double nearest to [a / b], ties to the even mantissa
    ([0 <= a], [0 < b]): 53 significant bits. *)
Definition round_ratio (a b : Z) : float :=
  if a =? 0 then mk 0 0 else
  let e := ilog2_ratio a b - 52 in
  let num := a * 2 ^ Z.max 0 (- e) in
  let den := b * 2 ^ Z.max 0 e in
  let q := num / den in
  let r := num mod den in
  let m :=
    if (den <? 2 * r) || ((den =? 2 * r) && Z.odd q) then q + 1 else q in
  mk m e.

(** [a / b] on two [int]s: correctly rounded; [None] stands for the
    [ZeroDivisionError]. *)
Definition true_div (a b : Z) : option float :=
  if b =? 0 then None else Some (round_ratio a b).

(** A decimal literal [n / 10^k], read as the nearest double. *)
Definition literal (n : Z) (k : Z) : float := round_ratio n (10 ^ k).

(** [x > y] *)
Definition gtb (x y : float) : bool :=
  let e := Z.min (expo x) (expo y) in
  mant y * 2 ^ (expo y - e) <? mant x * 2 ^ (expo x - e).

(** The same division in the IEEE 754 specification of the standard
    library (53 bits of precision, exponents up to 1024), to compare
    [round_ratio] with. *)
Definition ieee_div (a b : Z) : SpecFloat.spec_float :=
  SpecFloat.SFdiv 53 1024
    (SpecFloat.binary_normalize 53 1024 a 0 false)
    (SpecFloat.binary_normalize 53 1024 b 0 false).

Definition same_value (x : float) (y : SpecFloat.spec_float) : bool :=
  match y with
  | SpecFloat.S754_zero _ => mant x =? 0
  | SpecFloat.S754_finite false m e =>
      negb (gtb x (mk (Z.pos m) e)) && negb (gtb (mk (Z.pos m) e) x)
  | _ => false
  end.

(** The pairs [(a, b)] with [0 <= a <= b <= n] and [0 < b]. *)
Definition ratios_upto (n : nat) : list (Z * Z) :=
  flat_map (fun b => map (fun a => (Z.of_nat a, Z.of_nat b)) (seq 0 (S b)))
           (seq 1 n).

End Binary64.

(** ['\u0900' <= char <= '\u097F'] *)
Definition is_hindi (c : char) : bool := (0x0900 <=? c) && (c <=? 0x097F).

(** [detect_script(text)]; [None] stands for an exception raised. *)
Definition detect_script (text : str) : option string :=
  let hindi_chars := Z.of_nat (length (filter is_hindi text)) in
  let total_chars := Z.of_nat (length text) in
  if (total_chars =? 0)%Z then Some "other"%string else
  match Binary64.true_div hindi_chars total_chars with
  | None => None
  | Some hindi_ratio =>
      if Binary64.gtb hindi_ratio (Binary64.literal 3 1)
      then Some "hindi-heavy"%string
      else if Binary64.gtb hindi_ratio (Binary64.literal 5 2)
      then Some "hinglish"%string
      else Some "english"%string
  end.

(** ** Blocks of a transcript

    The notions the specification states its properties with: a block is a
    header line with the lines that follow it up to, and not including,
    the next header line; the lines before the first header are the
    leading noise. *)

Definition block : Type := str * list str.

Definition block_lines (b : block) : list str := fst b :: snd b.

(** The leading noise and the blocks of a list of lines. *)
Fixpoint blocks (lines : list str) : list str * list block :=
  match lines with
  | [] => ([], [])
  | l :: rest =>
      let '(pre, bs) := blocks rest in
      if is_header l then ([], (l, pre) :: bs) else (l :: pre, bs)
  end.

Definition count_headers (lines : list str) : nat :=
  length (filter is_header lines).

Definition not_header (line : str) : bool := negb (is_header line).

(** A block of the transcript: a header line, and no header among the
    lines that follow it. *)
Definition block_ok (b : block) : Prop :=
  is_header (fst b) = true /\ forallb not_header (snd b) = true.

(** What follows a block: nothing, or lines that start with the next
    header. *)
Definition at_boundary (post : list str) : Prop :=
  match post with
  | [] => True
  | l :: _ => is_header l = true
  end.

(** The groups of a header line (of no use on another line). *)
Definition header_groups (line : str) : groups :=
  match header_match (strip line) with
  | Some g => g
  | None => ([], [], [], [])
  end.

(** The first line of the body a header line opens. *)
Definition first_line (h : str) : str :=
  let '(_, _, _, tx) := header_groups h in strip tx.

Section BlockMessage.

Variable strptime : str -> option DateTime.

(** What a line that is not a header does to the open message. *)
Definition continue_with (m : Message) (line : str) : Message :=
  if truthy (strip line) then append_line m line else m.

(** The message of a block: the one its header opens, continued with
    the lines that follow. *)
Definition block_message (b : block) : Message :=
  fold_left continue_with (snd b)
            (new_message strptime (header_groups (fst b))).

(** Line [i] of [lines] lies in the block [b], which is the block of
    rank [j] (counted from 0) of the transcript. *)
Definition in_block (lines : list str) (i : nat) (b : block) (j : nat)
  : Prop :=
  exists pre post,
    lines = pre ++ block_lines b ++ post /\
    block_ok b /\ at_boundary post /\
    (length pre <= i < length pre + length (block_lines b))%nat /\
    j = count_headers pre.

(** Line [i] is assigned to the message of rank [j] of the output: the
    line lies in a block, as its header or as one of its continuation
    lines, and the message of that block is the one at rank [j]. *)
Definition assigned (lines : list str) (i j : nat) : Prop :=
  exists b,
    in_block lines i b j /\
    nth_error (parse_lines strptime lines) j = Some (block_message b).

End BlockMessage.

(** What the continuation lines add to a body: a newline and the trimmed
    line for every line that is not blank, in order. *)
Definition continuation (cs : list str) : str :=
  concat (map (fun l => ch "010" :: strip l)
              (filter (fun l => truthy (strip l)) cs)).

(** ** The round trip *)

(** [s.split('\n')] *)
Fixpoint split_newline (s : str) : list str :=
  match s with
  | [] => [[]]
  | c :: s' =>
      if c =? 10 then [] :: split_newline s'
      else match split_newline s' with
           | x :: r => (c :: x) :: r
           | [] => [[c]]
           end
  end.

(** The header line up to its sender: the date, the time and their
    separators (five characters). *)
Definition header_prefix (line : str) : str :=
  let '(d, t, _, _) := header_groups line in
  firstn (length d + length t + 5) (strip line).

(** A message written back after the prefix of its header line:
    [sender + ": " + message]. *)
Definition reassemble (prefix : str) (m : Message) : str :=
  prefix ++ sender m ++ u ": " ++ message m.

(** The round trip of the specification, on one transcript: every message
    written back gives, line for line, the lines of its block (compared
    without their trailing whitespace). *)
Definition roundtrip (strptime : str -> option DateTime) (text : str) : Prop :=
  forall j b m,
    nth_error (snd (blocks (readlines text))) j = Some b ->
    nth_error (messages strptime text) j = Some m ->
    split_newline (reassemble (header_prefix (fst b)) m)
    = map rstrip (block_lines b).

(** A header line written with nothing around its sender and its text
    but the separators of the format. *)
Definition plain_header (line : str) : Prop :=
  let '(_, _, sn, tx) := header_groups line in
  strip line = header_prefix line ++ strip sn ++ u ": " ++ strip tx.

(** ** The tags by exact ratio *)

(** The tag the specification gives to a body with [h] characters of the
    script among [t]: by the exact ratio [h / t]. *)
Definition ratio_tag (h t : Z) : string :=
  if (3 * t <? 10 * h)%Z then "hindi-heavy"%string
  else if (5 * t <? 100 * h)%Z then "hinglish"%string
  else "english"%string.

(** ** The scenarios of the specification *)

Definition scenario_A : str := u "08/11/21, 7:59 pm - Ananya: Hello there".

Definition scenario_B : str :=
  u "08/11/21, 7:59 pm - Ananya: Line one" ++ [ch "010"] ++ u "Line two".

Definition scenario_C : str := u "32/13/21, 7:59 pm - Ananya: Oops".

(** A transcript with an indented continuation line. *)
Definition indented_transcript : str :=
  u "08/11/21, 7:59 pm - Ananya: Line one" ++ [ch "010"]
    ++ u "  Line two" ++ [ch "010"].

(** ** Auxiliary notions *)

Definition opt_list (o : option Message) : list Message :=
  match o with Some m => [m] | None => [] end.

Definition no_colon (s : str) : Prop := Forall (fun c => c <> ch ":") s.

(** What follows the first colon of a string. *)
Fixpoint after_colon (s : str) : str :=
  match s with
  | [] => []
  | c :: s' => if c =? ch ":" then s' else after_colon s'
  end.

(** ** The rest of the script *)

(** A pattern without [^] and [$]: what it matches does not depend on
    where the match is tried. *)
Fixpoint anchorless (r : Re.regex) : bool :=
  match r with
  | Re.Bol | Re.Eol => false
  | Re.Cat r1 r2 | Re.Alt r1 r2 => anchorless r1 && anchorless r2
  | Re.Grp r1 => anchorless r1
  | _ => true
  end.

(** A header line written from its four tokens and the four whitespace
    characters between them. *)
Definition header_text (d t sn tx : str) (w1 w2 w3 w4 : char) : str :=
  d ++ [ch ","; w1] ++ t ++ [w2; ch "-"; w3] ++ sn ++ [ch ":"; w4] ++ tx.

(** The fields of a message its header line gives. *)
Definition header_fields (line : str) : str * str * str :=
  let '(d, t, sn, _) := header_groups line in (d, t, strip sn).

(** A timestamp the calendar and the clock have. *)
Definition valid_datetime (dt : DateTime) : Prop :=
  1969 <= year dt <= 2068 /\ 1 <= month dt <= 12
  /\ 1 <= day dt <= Strptime.days_in_month (year dt) (month dt)
  /\ day dt <= 31 /\ hour dt <= 23 /\ minute dt <= 59.

(** [s.split()]: the words of [s], cut at its runs of whitespace. *)
Fixpoint split_words (cur : str) (s : str) : list str :=
  match s with
  | [] => match cur with [] => [] | _ => [rev cur] end
  | c :: s' =>
      if Unicode.isspace c then
        match cur with
        | [] => split_words [] s'
        | _ => rev cur :: split_words [] s'
        end
      else split_words (c :: cur) s'
  end.

Definition split (s : str) : list str := split_words [] s.

(** A row of [sample_messages_by_period]: [row['sender'].split()[0]],
    where [None] stands for the [IndexError], and
    [row['message'][:60] + '...' if len(row['message']) > 60
     else row['message']]. *)
Definition row_sender (sender : str) : option str := hd_error (split sender).

Definition row_msg (message : str) : str :=
  if (60 <? length message)%nat then firstn 60 message ++ u "..."
  else message.

(** [old] starts [s], and [old] occurs in [s]. *)
Fixpoint is_prefix (old s : str) : bool :=
  match old, s with
  | [], _ => true
  | a :: old', b :: s' => (a =? b) && is_prefix old' s'
  | _ :: _, [] => false
  end.

Fixpoint occurs (old s : str) : bool :=
  is_prefix old s || match s with [] => false | _ :: s' => occurs old s' end.

(** [s.replace(old, new)] for an [old] that is not empty: the occurrences
    of [old] are replaced from left to right, none overlapping another;
    [skip] counts the characters left of the occurrence just replaced. *)
Fixpoint replace_from (old new : str) (skip : nat) (s : str) : str :=
  match s with
  | [] => []
  | c :: s' =>
      match skip with
      | S k => replace_from old new k s'
      | O =>
          if is_prefix old s
          then new ++ replace_from old new (length old - 1) s'
          else c :: replace_from old new 0 s'
      end
  end.

Definition replace (old new s : str) : str := replace_from old new 0 s.

(** [output_file = file_path.replace('.txt', '_parsed.csv')] *)
Definition output_file (file_path : str) : str :=
  replace (u ".txt") (u "_parsed.csv") file_path.

(** The line format of the pattern written out for a message: its date,
    time and sender with one space at each separator, then its body.  No
    function of the script writes this text; it states what the parser
    does to its own output. *)
Definition render (m : Message) : str :=
  header_text (date m) (time m) (sender m) (message m)
              (ch " ") (ch " ") (ch " ") (ch " ").

(** The lines the loop tells apart: trimmed, and the blank ones left
    out. *)
Definition significant (lines : list str) : list str :=
  filter truthy (map strip lines).

(** * Properties *)

(** ** Whitespace and [strip] *)

Lemma lstrip_app_stop (a : str) (c : char) (r : str) :
  Unicode.isspace c = false -> lstrip (a ++ c :: r) = lstrip a ++ c :: r.
Proof.
  intros Hc. induction a as [|x a IH]; simpl.
  - now rewrite Hc.
  - destruct (Unicode.isspace x); [exact IH | reflexivity].
Qed.

Lemma lstrip_spaces (ws s : str) :
  forallb Unicode.isspace ws = true -> lstrip (ws ++ s) = lstrip s.
Proof.
  induction ws as [|x ws IH]; simpl; [reflexivity|].
  intros H. apply andb_prop in H as [Hx Hws]. now rewrite Hx, IH.
Qed.

Lemma lstrip_head (c : char) (s : str) :
  Unicode.isspace c = false -> lstrip (c :: s) = c :: s.
Proof. intros H. simpl. now rewrite H. Qed.

Lemma lstrip_suffix (s : str) :
  exists ws, s = ws ++ lstrip s /\ forallb Unicode.isspace ws = true.
Proof.
  induction s as [|c s [ws [E H]]]; simpl.
  - now exists [].
  - destruct (Unicode.isspace c) eqn:Hc.
    + exists (c :: ws). simpl. rewrite Hc, H. split; [now f_equal | reflexivity].
    + now exists [].
Qed.

Lemma rstrip_app_stop (a : str) (c : char) (r : str) :
  Unicode.isspace c = false -> rstrip (a ++ c :: r) = a ++ rstrip (c :: r).
Proof.
  intros Hc. unfold rstrip.
  rewrite rev_app_distr. simpl (rev (c :: r)).
  rewrite <- app_assoc. simpl ([c] ++ rev a).
  rewrite !lstrip_app_stop by exact Hc.
  rewrite !rev_app_distr. simpl. rewrite rev_involutive, <- app_assoc.
  reflexivity.
Qed.

Lemma rstrip_spaces (s ws : str) :
  forallb Unicode.isspace ws = true -> rstrip (s ++ ws) = rstrip s.
Proof.
  intros H. unfold rstrip. rewrite rev_app_distr, lstrip_spaces; [reflexivity|].
  rewrite forallb_forall in *. intros x Hx. apply H. now apply in_rev.
Qed.

Lemma rstrip_last (a : str) (c : char) :
  Unicode.isspace c = false -> rstrip (a ++ [c]) = a ++ [c].
Proof.
  intros Hc. rewrite rstrip_app_stop by exact Hc. f_equal.
  unfold rstrip. simpl. now rewrite Hc.
Qed.

(** A stripped string is empty or ends with a character that is not
    whitespace. *)
Lemma rstrip_ends (s : str) :
  rstrip s = [] \/ exists a c, rstrip s = a ++ [c] /\ Unicode.isspace c = false.
Proof.
  unfold rstrip. destruct (lstrip (rev s)) as [|c r] eqn:E; [now left|right].
  exists (rev r), c. split; [reflexivity|].
  clear - E. induction (rev s) as [|x l IH]; simpl in E; [discriminate|].
  destruct (Unicode.isspace x) eqn:Hx; [now apply IH|]. now inversion E; subst.
Qed.

Lemma strip_ends (s : str) :
  strip s = [] \/ exists a c, strip s = a ++ [c] /\ Unicode.isspace c = false.
Proof. apply rstrip_ends. Qed.

(** Whitespace before a line does not change what [strip] returns. *)
Lemma strip_leading (ws s : str) :
  forallb Unicode.isspace ws = true -> strip (ws ++ s) = strip s.
Proof. intros H. unfold strip. now rewrite lstrip_spaces. Qed.

Lemma strip_trailing (s ws : str) :
  forallb Unicode.isspace ws = true -> strip (s ++ ws) = strip s.
Proof.
  intros H. unfold strip.
  destruct (lstrip_suffix s) as [w0 [E H0]].
  destruct (lstrip s) as [|c r] eqn:El.
  - rewrite app_nil_r in E. subst w0.
    assert (Hall : forallb Unicode.isspace (s ++ ws) = true)
      by (rewrite forallb_app, H0, H; reflexivity).
    rewrite <- (app_nil_r (s ++ ws)), lstrip_spaces by exact Hall. reflexivity.
  - assert (Hc : Unicode.isspace c = false).
    { clear - El. induction s as [|x s IH]; simpl in El; [discriminate|].
      destruct (Unicode.isspace x) eqn:Hx; [now apply IH|]. now inversion El; subst. }
    rewrite E at 1. rewrite <- app_assoc, lstrip_spaces by exact H0.
    simpl app. rewrite lstrip_head by exact Hc.
    change (c :: r ++ ws) with ((c :: r) ++ ws). now apply rstrip_spaces.
Qed.

Lemma rstrip_In (s : str) :
  forall c, In c (rstrip s) -> In c s.
Proof.
  intros c H. unfold rstrip in H. apply in_rev in H.
  destruct (lstrip_suffix (rev s)) as [ws [E _]].
  apply in_rev. rewrite E. apply in_or_app. now right.
Qed.

Lemma strip_In (s : str) (c : char) : In c (strip s) -> In c s.
Proof.
  intros H. apply rstrip_In in H.
  destruct (lstrip_suffix s) as [ws [E _]]. rewrite E. apply in_or_app. now right.
Qed.

(** ** The matcher returns matches of the pattern *)

Module ReFacts.

Import Re.

Lemma greedy_sound (A : Type) (p : char -> bool) (lo : nat) (hi : option nat)
      (s : str) :
  forall (n pos : nat) (k : nat -> str -> option A) (x : A),
    greedy p lo hi n pos s k = Some x ->
    exists w rest,
      s = w ++ rest /\ forallb p w = true /\ (lo <= n + length w)%nat /\
      (forall h, hi = Some h -> w = [] \/ (n + length w <= h)%nat) /\
      k (pos + length w)%nat rest = Some x.
Proof.
  assert (Stop : forall n pos (t : str) (k : nat -> str -> option A) x,
             (if (lo <=? n)%nat then k pos t else None) = Some x ->
             exists w rest,
               t = w ++ rest /\ forallb p w = true /\ (lo <= n + length w)%nat /\
               (forall h, hi = Some h -> w = [] \/ (n + length w <= h)%nat) /\
               k (pos + length w)%nat rest = Some x).
  { intros n pos t k x H. destruct (Nat.leb_spec lo n); [|discriminate].
    exists [], t. simpl. rewrite !Nat.add_0_r. repeat split; auto. }
  induction s as [|c s IH]; intros n pos k x H; simpl in H.
  - now apply Stop.
  - destruct (p c && under hi n) eqn:Hp; [|now apply Stop].
    destruct (greedy p lo hi (S n) (S pos) s k) as [y|] eqn:Hg; [|now apply Stop].
    inversion H; subst y; clear H.
    apply IH in Hg as (w & rest & -> & Hw & Hlo & Hhi & Hk).
    apply andb_prop in Hp as [Hc Hu].
    exists (c :: w), rest. simpl. rewrite Hc, Hw.
    replace (pos + S (length w))%nat with (S pos + length w)%nat by lia.
    repeat split; auto; try lia.
    intros h Eh. right. destruct (Hhi h Eh) as [-> | Hle]; [|lia].
    subst hi. simpl in Hu. apply Nat.ltb_lt in Hu. simpl. lia.
Qed.

Lemma insert_at_end (caps gs : list str) (w : str) :
  insert_at (length caps) w (caps ++ gs) = caps ++ w :: gs.
Proof.
  unfold insert_at.
  rewrite firstn_app, Nat.sub_diag, firstn_all, firstn_O, app_nil_r.
  rewrite skipn_app, Nat.sub_diag, skipn_all. reflexivity.
Qed.

Theorem run_sound (A : Type) (r : regex) :
  forall (pos : nat) (s : str) (caps : list str)
         (k : nat -> str -> list str -> option A) (x : A),
    run r pos s caps k = Some x ->
    exists w rest gs,
      s = w ++ rest /\ matches r pos w rest gs /\
      k (pos + length w)%nat rest (caps ++ gs) = Some x.
Proof.
  induction r as [| |p|p lo hi|r1 IH1 r2 IH2|r1 IH1 r2 IH2|r1 IH1];
    intros pos s caps k x H; simpl in H.
  - destruct (Nat.eqb_spec pos 0) as [->|]; [|discriminate].
    exists [], s, []. rewrite app_nil_r. simpl. repeat split; auto. constructor.
  - assert (E : (s = [] \/ s = [10]) /\ k pos s caps = Some x).
    { destruct s as [|c [|c' s]]; try discriminate; [auto|].
      destruct (N.eqb_spec c 10) as [->|]; [auto|discriminate]. }
    destruct E as [E Hk]. exists [], s, []. rewrite app_nil_r, Nat.add_0_r.
    repeat split; auto. now constructor.
  - destruct s as [|c s]; [discriminate|]. destruct (p c) eqn:Hc; [|discriminate].
    exists [c], s, []. rewrite app_nil_r. simpl.
    replace (pos + 1)%nat with (S pos) by lia. repeat split; auto. now constructor.
  - apply greedy_sound in H as (w & rest & -> & Hw & Hlo & Hhi & Hk).
    exists w, rest, []. rewrite app_nil_r. repeat split; auto.
    constructor; auto. intros h Eh. destruct (Hhi h Eh) as [-> | Hle]; simpl; lia.
  - apply IH1 in H as (w1 & rest1 & g1 & -> & M1 & H).
    apply IH2 in H as (w2 & rest & g2 & -> & M2 & H).
    exists (w1 ++ w2), rest, (g1 ++ g2).
    split; [now rewrite app_assoc|]. split; [now constructor|].
    rewrite length_app, Nat.add_assoc, app_assoc. exact H.
  - destruct (run r1 pos s caps k) as [y|] eqn:H1.
    + inversion H; subst y. apply IH1 in H1 as (w & rest & gs & -> & M & Hk).
      exists w, rest, gs. repeat split; auto. now apply m_alt_l.
    + apply IH2 in H as (w & rest & gs & -> & M & Hk).
      exists w, rest, gs. repeat split; auto. now apply m_alt_r.
  - apply IH1 in H as (w & rest & gs & -> & M & Hk).
    exists w, rest, (w :: gs). repeat split; auto; [now constructor|].
    replace (pos + length w - pos)%nat with (length w + 0)%nat in Hk by lia.
    rewrite firstn_app_2, firstn_O, app_nil_r, insert_at_end in Hk. exact Hk.
Qed.

Lemma match_sound (r : regex) (s : str) (gs : list str) (e : nat) :
  match_ r s = Some (gs, e) ->
  exists w rest, s = w ++ rest /\ matches r 0 w rest gs /\ e = length w.
Proof.
  unfold match_. intros H. apply run_sound in H as (w & rest & g & -> & M & Hk).
  simpl in Hk. inversion Hk; subst. now exists w, rest.
Qed.

Lemma fullmatch_sound (r : regex) (s : str) :
  fullmatch r s = true -> in_lang r s.
Proof.
  unfold fullmatch.
  destruct (run r 0 s [] _) as [[]|] eqn:H; [intros _|discriminate].
  apply run_sound in H as (w & rest & g & -> & M & Hk).
  destruct rest; [|discriminate]. rewrite app_nil_r. now exists 0%nat, [], g.
Qed.

(** A pattern without groups captures nothing. *)
Lemma groupless_matches (r : regex) pos w rest gs :
  matches r pos w rest gs -> groupless r = true -> gs = [].
Proof.
  induction 1; simpl; intros G; auto; try discriminate.
  - apply andb_prop in G as [G1 G2]. now rewrite IHmatches1, IHmatches2.
  - apply andb_prop in G as [G1 G2]. auto.
  - apply andb_prop in G as [G1 G2]. auto.
Qed.

(** Inversion of [matches] along the constructors of a pattern. *)
Ltac inv_matches :=
  repeat match goal with
    | H : matches Bol _ _ _ _ |- _ => inversion H; subst; clear H
    | H : matches Eol _ _ _ _ |- _ => inversion H; subst; clear H
    | H : matches (Cls _) _ _ _ _ |- _ => inversion H; subst; clear H
    | H : matches (Rep _ _ _) _ _ _ _ |- _ => inversion H; subst; clear H
    | H : matches (Cat _ _) _ _ _ _ |- _ => inversion H; subst; clear H
    | H : matches (Grp _) _ _ _ _ |- _ => inversion H; subst; clear H
    end.

End ReFacts.

(** ** The shape of a header *)

(** What [header_match] accepts: the four groups, in the language of
    their sub-pattern, with the separators of the pattern between them. *)
Lemma header_match_shape (s d t sn m : str) :
  header_match s = Some (d, t, sn, m) ->
  exists w1 w2 w3 w4 tail,
    s = d ++ [ch ","; w1] ++ t ++ [w2; ch "-"; w3] ++ sn ++ [ch ":"; w4]
          ++ m ++ tail /\
    Re.in_lang date_re d /\ Re.in_lang time_re t /\
    Re.in_lang sender_re sn /\ Re.in_lang text_re m /\
    Unicode.isspace w1 = true /\ Unicode.isspace w2 = true /\
    Unicode.isspace w3 = true /\ Unicode.isspace w4 = true /\
    (tail = [] \/ tail = [10]).
Proof.
  unfold header_match. intros H.
  destruct (Re.match_ pattern s) as [[gs e]|] eqn:Hm; [|discriminate].
  destruct gs as [|g1 [|g2 [|g3 [|g4 [|g5 gs]]]]]; try discriminate.
  inversion H; subst; clear H.
  apply ReFacts.match_sound in Hm as (w & rest & -> & M & _).
  unfold pattern in M. cbv zeta in M. unfold Re.lit in M.
  ReFacts.inv_matches.
  repeat match goal with
         | H : (_ =? _) = true |- _ => apply N.eqb_eq in H; subst
         end.
  repeat match goal with
         | H : Re.matches _ _ _ _ ?g |- _ =>
             is_var g;
             let E := fresh in
             assert (E : g = [])
               by (apply (ReFacts.groupless_matches H); reflexivity);
             subst g
         end.
  match goal with
  | H : _ = [_; _; _; _] |- _ => simpl in H; inversion H; subst; clear H
  end.
  do 4 eexists. exists rest.
  split.
  { repeat first [rewrite <- app_assoc | progress simpl]. reflexivity. }
  repeat split; auto; unfold Re.in_lang; eauto.
Qed.

(** ** Characters of the tokens *)

Lemma isspace_cases (c : char) :
  Unicode.isspace c = true ->
  In c [0x09; 0x0A; 0x0B; 0x0C; 0x0D; 0x1C; 0x1D; 0x1E; 0x1F; 0x20; 0x85;
        0xA0; 0x1680; 0x2000; 0x2001; 0x2002; 0x2003; 0x2004; 0x2005;
        0x2006; 0x2007; 0x2008; 0x2009; 0x200A; 0x2028; 0x2029; 0x202F;
        0x205F; 0x3000].
Proof.
  unfold Unicode.isspace. intros H.
  repeat rewrite ?orb_true_iff, ?andb_true_iff, ?N.leb_le, ?N.eqb_eq in H.
  simpl. lia.
Qed.

Lemma decimal_not_space (c : char) :
  Unicode.isdecimal c = true -> Unicode.isspace c = false.
Proof.
  intros H. destruct (Unicode.isspace c) eqn:E; [exfalso|reflexivity].
  apply isspace_cases in E. simpl in E.
  repeat (destruct E as [<- | E]; [vm_compute in H; discriminate|]).
  exact E.
Qed.

Lemma decimal_not_colon (c : char) : Unicode.isdecimal c = true -> c <> ch ":".
Proof. intros H ->. vm_compute in H. discriminate. Qed.

Lemma space_not_colon (c : char) : Unicode.isspace c = true -> c <> ch ":".
Proof. intros H ->. vm_compute in H. discriminate. Qed.

Lemma no_colon_app (a b : str) : no_colon a -> no_colon b -> no_colon (a ++ b).
Proof. intros; apply Forall_app; auto. Qed.

Lemma no_colon_class (p : char -> bool) (w : str) :
  (forall c, p c = true -> c <> ch ":") -> forallb p w = true -> no_colon w.
Proof.
  intros Hp H. apply Forall_forall. intros c Hc.
  rewrite forallb_forall in H. auto.
Qed.

Lemma none_of_colon (c : char) : Re.none_of (u ":") c = true -> c <> ch ":".
Proof. intros H ->. vm_compute in H. discriminate. Qed.

Create HintDb tokens.
#[local] Hint Resolve decimal_not_colon space_not_colon none_of_colon : tokens.

(** ** The tokens of a header *)

Lemma date_token (d : str) :
  Re.in_lang date_re d ->
  no_colon d /\ exists c d', d = c :: d' /\ Unicode.isdecimal c = true.
Proof.
  intros (pos & rest & gs & M). unfold date_re in M. cbv zeta in M.
  unfold Re.lit in M. ReFacts.inv_matches.
  repeat match goal with
         | H : (_ =? _) = true |- _ => apply N.eqb_eq in H; subst
         end.
  split.
  - repeat apply no_colon_app;
      try (eapply no_colon_class; [|eassumption]; auto with tokens);
      repeat constructor; discriminate.
  - destruct w1 as [|c w1]; [simpl in *; lia|].
    exists c. eexists. split; [reflexivity|].
    match goal with H : forallb _ (c :: _) = true |- _ =>
      simpl in H; apply andb_prop in H as [H _]; exact H end.
Qed.

Lemma time_token (t : str) :
  Re.in_lang time_re t ->
  exists b1 b2, t = b1 ++ ch ":" :: b2 /\ no_colon b1 /\ no_colon b2.
Proof.
  intros (pos & rest & gs & M). unfold time_re in M. cbv zeta in M.
  unfold Re.lit in M. ReFacts.inv_matches.
  repeat match goal with
         | H : (_ =? _) = true |- _ => apply N.eqb_eq in H; subst
         end.
  do 2 eexists. split; [reflexivity|]. split.
  - eapply no_colon_class; [|eassumption]; auto with tokens.
  - repeat apply no_colon_app;
      try (eapply no_colon_class; [|eassumption]; auto with tokens);
      repeat constructor; try discriminate; auto with tokens.
    intros ->. discriminate.
Qed.

Lemma sender_token (sn : str) :
  Re.in_lang sender_re sn -> sn <> [] /\ no_colon sn.
Proof.
  intros (pos & rest & gs & M). unfold sender_re in M. ReFacts.inv_matches.
  split.
  - intros ->. simpl in *. lia.
  - eapply no_colon_class; [|eassumption]; auto with tokens.
Qed.

Lemma text_token (m : str) :
  Re.in_lang text_re m -> m <> [] /\ Forall (fun c => c <> 10) m.
Proof.
  intros (pos & rest & gs & M). unfold text_re in M. ReFacts.inv_matches.
  split.
  - intros ->. simpl in *. lia.
  - apply Forall_forall. intros c Hc.
    match goal with H : forallb _ _ = true |- _ =>
      rewrite forallb_forall in H; specialize (H c Hc) end.
    intros ->. discriminate.
Qed.

(** ** The loop, block by block *)

Section Assembler.

Variable strptime : str -> option DateTime.

Lemma loop_body_header (st : state) (line : str) :
  is_header line = true ->
  loop_body strptime st line
  = (Some (new_message strptime (header_groups line)), flush st).
Proof.
  unfold is_header, loop_body, header_groups.
  destruct (header_match (strip line)); [reflexivity|discriminate].
Qed.

Lemma loop_body_other (st : state) (line : str) :
  is_header line = false ->
  loop_body strptime st line
  = (option_map (fun m => continue_with m line) (fst st), snd st).
Proof.
  unfold is_header, loop_body, continue_with.
  destruct (header_match (strip line)); [discriminate|intros _].
  destruct st as [[m|] out]; simpl; [|reflexivity].
  destruct (truthy (strip line)); reflexivity.
Qed.

Lemma flush_eq (st : state) : flush st = snd st ++ opt_list (fst st).
Proof. destruct st as [[m|] out]; simpl; [reflexivity | now rewrite app_nil_r]. Qed.

(** The invariant of the loop: the open message takes the lines up to the
    next header, and every block after it gives one message. *)
Lemma loop_blocks (lines : list str) :
  forall st : state,
    flush (fold_left (loop_body strptime) lines st)
    = snd st
      ++ opt_list (option_map (fun m => fold_left continue_with
                                          (fst (blocks lines)) m) (fst st))
      ++ map (block_message strptime) (snd (blocks lines)).
Proof.
  induction lines as [|l lines IH]; intros st; simpl.
  - rewrite app_nil_r, flush_eq. now destruct (fst st).
  - rewrite IH. destruct (blocks lines) as [pre bs] eqn:B.
    destruct (is_header l) eqn:Hl.
    + rewrite loop_body_header by exact Hl. simpl.
      rewrite flush_eq, <- app_assoc. f_equal.
      now destruct (fst st).
    + rewrite loop_body_other by exact Hl. simpl. f_equal.
      now destruct (fst st).
Qed.

(** The parser gives exactly one message per block, in order. *)
Theorem parse_lines_blocks (lines : list str) :
  parse_lines strptime lines
  = map (block_message strptime) (snd (blocks lines)).
Proof. unfold parse_lines. now rewrite loop_blocks. Qed.

End Assembler.

Lemma blocks_partition (lines : list str) :
  lines = fst (blocks lines) ++ flat_map block_lines (snd (blocks lines)).
Proof.
  induction lines as [|l lines IH]; simpl; [reflexivity|].
  destruct (blocks lines) as [pre bs]. simpl in IH.
  destruct (is_header l); simpl; unfold block_lines at 1; simpl; now f_equal.
Qed.

Lemma blocks_noise (lines : list str) :
  forallb not_header (fst (blocks lines)) = true.
Proof.
  induction lines as [|l lines IH]; simpl; [reflexivity|].
  destruct (blocks lines) as [pre bs]. simpl in IH.
  destruct (is_header l) eqn:Hl; simpl; [reflexivity|].
  unfold not_header at 1. now rewrite Hl.
Qed.

Lemma blocks_ok (lines : list str) : Forall block_ok (snd (blocks lines)).
Proof.
  induction lines as [|l lines IH]; simpl; [constructor|].
  pose proof (blocks_noise lines) as N.
  destruct (blocks lines) as [pre bs]. simpl in *.
  destruct (is_header l) eqn:Hl; simpl; [|exact IH].
  constructor; [now split | exact IH].
Qed.

Lemma blocks_count (lines : list str) :
  length (snd (blocks lines)) = count_headers lines.
Proof.
  unfold count_headers. induction lines as [|l lines IH]; simpl; [reflexivity|].
  destruct (blocks lines) as [pre bs]. simpl in IH.
  destruct (is_header l); simpl; now rewrite IH.
Qed.

Lemma count_headers_app (a b : list str) :
  count_headers (a ++ b) = (count_headers a + count_headers b)%nat.
Proof. unfold count_headers. now rewrite filter_app, length_app. Qed.

Lemma count_headers_none (l : list str) :
  forallb not_header l = true -> count_headers l = 0%nat.
Proof.
  unfold count_headers. induction l as [|x l IH]; simpl; [reflexivity|].
  intros H. apply andb_prop in H as [Hx Hl]. unfold not_header in Hx.
  destruct (is_header x); [discriminate|auto].
Qed.

Lemma blocks_app_noise (cs rest : list str) :
  forallb not_header cs = true ->
  blocks (cs ++ rest) = (cs ++ fst (blocks rest), snd (blocks rest)).
Proof.
  induction cs as [|c cs IH]; simpl; intros H.
  - now destruct (blocks rest).
  - apply andb_prop in H as [Hc Hcs]. rewrite (IH Hcs).
    unfold not_header in Hc. destruct (is_header c); [discriminate|reflexivity].
Qed.

Lemma blocks_header (h : str) (rest : list str) :
  is_header h = true ->
  blocks (h :: rest) = ([], (h, fst (blocks rest)) :: snd (blocks rest)).
Proof. simpl. intros ->. now destruct (blocks rest). Qed.

Lemma blocks_app_header (pre : list str) (h : str) (rest : list str) :
  is_header h = true ->
  blocks (pre ++ h :: rest)
  = (fst (blocks pre), snd (blocks pre) ++ snd (blocks (h :: rest))).
Proof.
  intros Hh. induction pre as [|p pre IH].
  - change ([] ++ h :: rest) with (h :: rest).
    rewrite !blocks_header by exact Hh. reflexivity.
  - change ((p :: pre) ++ h :: rest) with (p :: (pre ++ h :: rest)).
    change (blocks (p :: pre ++ h :: rest))
      with (let '(n, bs) := blocks (pre ++ h :: rest) in
            if is_header p then ([], (p, n) :: bs) else (p :: n, bs)).
    rewrite IH.
    change (blocks (p :: pre))
      with (let '(n, bs) := blocks pre in
            if is_header p then ([], (p, n) :: bs) else (p :: n, bs)).
    destruct (blocks pre) as [n bs]. simpl fst. simpl snd.
    destruct (is_header p); reflexivity.
Qed.

Lemma blocks_boundary (post : list str) :
  at_boundary post -> fst (blocks post) = [].
Proof.
  destruct post as [|l post]; simpl; [reflexivity|].
  intros ->. now destruct (blocks post).
Qed.

(** The blocks of a transcript cut around one of its blocks. *)
Lemma blocks_around (pre : list str) (b : block) (post : list str) :
  block_ok b -> at_boundary post ->
  snd (blocks (pre ++ block_lines b ++ post))
  = snd (blocks pre) ++ b :: snd (blocks post).
Proof.
  intros [Hh Hcs] Hpost. destruct b as [h cs]. cbn [fst snd] in *.
  change (block_lines (h, cs) ++ post) with (h :: (cs ++ post)).
  rewrite blocks_app_header by exact Hh.
  rewrite blocks_header by exact Hh.
  rewrite blocks_app_noise by exact Hcs. cbn [fst snd].
  now rewrite (blocks_boundary _ Hpost), app_nil_r.
Qed.

Lemma nth_error_middle (A : Type) (a : list A) (x : A) (b : list A) :
  nth_error (a ++ x :: b) (length a) = Some x.
Proof. rewrite nth_error_app2, Nat.sub_diag by lia. reflexivity. Qed.

Section BlockFacts.

Variable strptime : str -> option DateTime.

(** The message of a block is the one found in the output at the rank
    of the block. *)
Lemma parse_lines_around (pre : list str) (b : block) (post : list str) :
  block_ok b -> at_boundary post ->
  parse_lines strptime (pre ++ block_lines b ++ post)
  = parse_lines strptime pre ++ block_message strptime b
      :: parse_lines strptime post.
Proof.
  intros Hb Hpost. rewrite !parse_lines_blocks, blocks_around by assumption.
  now rewrite map_app.
Qed.

Lemma parse_lines_length (lines : list str) :
  length (parse_lines strptime lines) = count_headers lines.
Proof. now rewrite parse_lines_blocks, length_map, blocks_count. Qed.

Lemma parse_lines_nth (pre : list str) (b : block) (post : list str) :
  block_ok b -> at_boundary post ->
  nth_error (parse_lines strptime (pre ++ block_lines b ++ post))
            (count_headers pre)
  = Some (block_message strptime b).
Proof.
  intros Hb Hpost. rewrite parse_lines_around by assumption.
  rewrite <- (parse_lines_length pre). apply nth_error_middle.
Qed.

(** A continuation changes the body only. *)
Lemma continue_fields (cs : list str) (m : Message) :
  let m' := fold_left continue_with cs m in
  datetime m' = datetime m /\ date m' = date m /\ time m' = time m /\
  sender m' = sender m.
Proof.
  revert m. induction cs as [|c cs IH]; intros m; simpl; [auto|].
  destruct (IH (continue_with m c)) as (H1 & H2 & H3 & H4).
  rewrite H1, H2, H3, H4. unfold continue_with.
  destruct (truthy (strip c)); simpl; auto.
Qed.

Lemma continue_body (cs : list str) (m : Message) :
  message (fold_left continue_with cs m) = message m ++ continuation cs.
Proof.
  unfold continuation.
  revert m. induction cs as [|c cs IH]; intros m; simpl.
  - now rewrite app_nil_r.
  - rewrite IH. unfold continue_with.
    destruct (truthy (strip c)); simpl; [|reflexivity].
    now rewrite <- app_assoc.
Qed.

End BlockFacts.

(** Lines with no header among them, and lines after a header. *)
Lemma last_header (l : list str) :
  (0 < count_headers l)%nat ->
  exists pre h cs,
    l = pre ++ h :: cs /\ is_header h = true /\ forallb not_header cs = true.
Proof.
  induction l as [|x l IH]; unfold count_headers; simpl; [lia|].
  intros H. destruct (Nat.eq_dec (count_headers l) 0) as [E|E].
  - destruct (is_header x) eqn:Hx.
    + exists [], x, l. repeat split; auto.
      clear - E. induction l as [|y l IH]; simpl; [reflexivity|].
      unfold count_headers in E. simpl in E. unfold not_header at 1.
      destruct (is_header y); simpl in *; [discriminate|auto].
    + unfold count_headers in E. lia.
  - destruct IH as (pre & h & cs & -> & Hh & Hcs); [lia|].
    now exists (x :: pre), h, cs.
Qed.

Lemma next_header (l : list str) :
  exists cs post,
    l = cs ++ post /\ forallb not_header cs = true /\ at_boundary post.
Proof.
  induction l as [|x l (cs & post & -> & Hcs & Hpost)].
  - now exists [], [].
  - destruct (is_header x) eqn:Hx.
    + now exists [], (x :: cs ++ post).
    + exists (x :: cs), post. simpl. unfold not_header at 1. now rewrite Hx.
Qed.

(** ** The message assembler, as specified *)

Lemma header_groups_eq (line : str) (g : groups) :
  header_match (strip line) = Some g ->
  is_header line = true /\ header_groups line = g.
Proof. unfold is_header, header_groups. now intros ->. Qed.

Lemma firstn_exact (A : Type) (a b : list A) : firstn (length a) (a ++ b) = a.
Proof.
  rewrite firstn_app, Nat.sub_diag, firstn_all, firstn_O. apply app_nil_r.
Qed.

(** ** The frame returned *)

Lemma existsb_is_datetime (ms : list Message) :
  existsb is_datetime ms = false <-> Forall (fun m => datetime m = None) ms.
Proof.
  induction ms as [|m ms IH]; simpl.
  - split; [constructor | reflexivity].
  - unfold is_datetime at 1. split.
    + intros H. apply orb_false_iff in H as [H1 H2]. constructor.
      * now destruct (datetime m).
      * now apply IH.
    + intros H. inversion H as [|? ? H1 H2]; subst. rewrite H1. simpl.
      now apply IH.
Qed.

(** A frame returned has the messages as its rows, in their order. *)
Lemma data_frame_returned (ms : list Message) (df : DataFrame) :
  data_frame ms = Returned df ->
  rows df = map add_columns ms /\ map cells (rows df) = ms.
Proof.
  assert (E : map cells (map add_columns ms) = ms)
    by (rewrite map_map; simpl; apply map_id).
  unfold data_frame. destruct ms as [|m ms].
  - intros H. inversion H. now split.
  - destruct (existsb is_datetime (m :: ms)); intros H; inversion H.
    now split.
Qed.

(** The call fails exactly on messages none of which has a timestamp. *)
Lemma data_frame_raised (ms : list Message) :
  data_frame ms = Raised AttributeError
  <-> ms <> [] /\ Forall (fun m => datetime m = None) ms.
Proof.
  unfold data_frame. destruct ms as [|m ms].
  - split; [discriminate | intros [H _]; now elim H].
  - destruct (existsb is_datetime (m :: ms)) eqn:E.
    + split; [discriminate|]. intros [_ H].
      apply existsb_is_datetime in H. congruence.
    + split; [|reflexivity]. intros _. split; [discriminate|].
      now apply existsb_is_datetime.
Qed.

Lemma data_frame_some (ms : list Message) :
  Exists (fun m => datetime m <> None) ms ->
  data_frame ms
  = Returned (mkDataFrame (message_keys ++ added_columns)
                          (map add_columns ms)).
Proof.
  intros H. unfold data_frame. destruct ms as [|m ms]; [inversion H|].
  destruct (existsb is_datetime (m :: ms)) eqn:E; [reflexivity|].
  apply existsb_is_datetime in E. apply Exists_exists in H as (x & Hx & Hd).
  rewrite Forall_forall in E. now elim Hd; apply E.
Qed.

(** C1: the list [messages] has as many messages as the transcript has
    lines matching the header grammar, and the message of the last
    header, with the lines that follow it up to the end of input, is
    its last; with no such line [parse_whatsapp_chat] returns the empty
    frame; a frame it returns has these messages as its rows, one for
    each header line.  But the call returns no frame on every
    transcript: it raises [AttributeError] (line 77) exactly when there
    is a header line and no timestamp parses, and there the claim
    fails. *)
Theorem C1_message_count (strptime : str -> option DateTime) (text : str) :
  length (messages strptime text) = count_headers (readlines text)
  /\ (count_headers (readlines text) = 0%nat ->
      messages strptime text = []
      /\ parse_whatsapp_chat strptime text = Returned (mkDataFrame [] []))
  /\ (forall pre h cs,
        readlines text = pre ++ h :: cs ->
        is_header h = true -> forallb not_header cs = true ->
        messages strptime text
        = parse_lines strptime pre ++ [block_message strptime (h, cs)])
  /\ (forall df,
        parse_whatsapp_chat strptime text = Returned df ->
        map cells (rows df) = messages strptime text
        /\ length (rows df) = count_headers (readlines text))
  /\ (parse_whatsapp_chat strptime text = Raised AttributeError
      <-> (0 < count_headers (readlines text))%nat
          /\ Forall (fun m => datetime m = None) (messages strptime text)).
Proof.
  assert (L : length (messages strptime text)
              = count_headers (readlines text))
    by apply parse_lines_length.
  split; [exact L|]. split; [|split; [|split]].
  - intros E. rewrite E in L. unfold parse_whatsapp_chat.
    destruct (messages strptime text); [now split | discriminate].
  - unfold messages. intros pre h cs E Hh Hcs. rewrite E.
    pose proof (@parse_lines_around strptime pre (h, cs) []) as P.
    unfold block_lines in P. cbn [fst snd] in P. rewrite app_nil_r in P.
    apply P; [now split | exact I].
  - unfold parse_whatsapp_chat. intros df H.
    apply data_frame_returned in H as [_ H]. split; [exact H|].
    rewrite <- L, <- H at 1. now rewrite length_map.
  - unfold parse_whatsapp_chat. rewrite data_frame_raised, <- L.
    destruct (messages strptime text); simpl; split; intros [H1 H2];
      split; auto; try lia; try discriminate. now elim H1.
Qed.

Lemma C1_message_count_witness :
  parse_whatsapp_chat Strptime.strptime scenario_C = Raised AttributeError.
Proof.
  apply (proj2 (proj2 (proj2 (proj2
           (C1_message_count Strptime.strptime scenario_C))))).
  split; [vm_compute; lia | repeat constructor].
Defined.

(** C1, as stated, fails on scenario C: the transcript has one header
    line and the call returns no frame. *)
Lemma C1_counterexample :
  count_headers (readlines scenario_C) = 1%nat
  /\ parse_whatsapp_chat Strptime.strptime scenario_C = Raised AttributeError
  /\ (forall df,
        parse_whatsapp_chat Strptime.strptime scenario_C <> Returned df).
Proof. repeat split. discriminate. Qed.

(** C2: when [strptime] fails on ["<date>, <time>"] for a header line,
    whatever the reason, the loop still makes the message of that line,
    at the rank of the header in [messages], with [datetime = None] and
    with [date] and [time] equal to the substrings the pattern matched in
    the line.  What the caller gets depends on the other messages: when
    a timestamp of the transcript parses, the frame is returned and has
    this message as a row, its timestamp and added columns missing; when
    none does, [AttributeError] is raised on line 77 and the claim
    fails. *)
Theorem C2_unparsable_timestamp (strptime : str -> option DateTime)
        (text : str) (i : nat) (line d t sn tx : str) :
  nth_error (readlines text) i = Some line ->
  header_match (strip line) = Some (d, t, sn, tx) ->
  strptime (d ++ u ", " ++ t) = None ->
  exists m,
    nth_error (messages strptime text)
              (count_headers (firstn i (readlines text))) = Some m
    /\ datetime m = None /\ date m = d /\ time m = t
    /\ (exists w rest, strip line = d ++ ch "," :: w :: t ++ rest)
    /\ (Exists (fun m' => datetime m' <> None) (messages strptime text) ->
        exists df,
          parse_whatsapp_chat strptime text = Returned df
          /\ nth_error (rows df) (count_headers (firstn i (readlines text)))
             = Some (mkRow m None None None None None))
    /\ (Forall (fun m' => datetime m' = None) (messages strptime text) ->
        parse_whatsapp_chat strptime text = Raised AttributeError).
Proof.
  intros Hi Hm Hs. unfold parse_whatsapp_chat, messages.
  set (lines := readlines text) in *.
  destruct (header_groups_eq _ Hm) as [Hh Hg].
  apply nth_error_split in Hi as (l1 & l2 & E & <-). rewrite E.
  destruct (next_header l2) as (cs & post & -> & Hcs & Hpost).
  rewrite firstn_exact.
  set (m := block_message strptime (line, cs)).
  assert (Hn : nth_error (parse_lines strptime (l1 ++ line :: cs ++ post))
                         (count_headers l1) = Some m)
    by (apply (@parse_lines_nth strptime l1 (line, cs) post);
        [now split | exact Hpost]).
  assert (Hf : datetime m = None /\ date m = d /\ time m = t).
  { unfold m, block_message. cbn [fst snd]. rewrite Hg.
    destruct (continue_fields cs (new_message strptime (d, t, sn, tx)))
      as (H1 & H2 & H3 & _).
    rewrite H1, H2, H3. simpl. auto. }
  destruct Hf as (F1 & F2 & F3).
  exists m. split; [exact Hn|]. split; [exact F1|]. split; [exact F2|].
  split; [exact F3|]. split; [|split].
  - apply header_match_shape in Hm as (w1 & w2 & w3 & w4 & tail & E' & _).
    exists w1. eexists. rewrite E'. simpl. reflexivity.
  - intros Hex. rewrite (data_frame_some Hex). eexists. split; [reflexivity|].
    simpl rows. rewrite nth_error_map, Hn. simpl. unfold add_columns.
    now rewrite F1.
  - intros Hall. apply data_frame_raised. split; [|exact Hall].
    intros E0. rewrite E0 in Hn. now destruct (count_headers l1).
Qed.

Lemma C2_unparsable_timestamp_witness :
  exists m,
    nth_error (messages Strptime.strptime scenario_C)
              (count_headers (firstn 0 (readlines scenario_C))) = Some m
    /\ datetime m = None /\ date m = u "32/13/21" /\ time m = u "7:59 pm"
    /\ (exists w rest,
          strip scenario_C = u "32/13/21" ++ ch "," :: w :: u "7:59 pm" ++ rest)
    /\ (Exists (fun m' => datetime m' <> None)
               (messages Strptime.strptime scenario_C) ->
        exists df,
          parse_whatsapp_chat Strptime.strptime scenario_C = Returned df
          /\ nth_error (rows df)
                       (count_headers (firstn 0 (readlines scenario_C)))
             = Some (mkRow m None None None None None))
    /\ (Forall (fun m' => datetime m' = None)
               (messages Strptime.strptime scenario_C) ->
        parse_whatsapp_chat Strptime.strptime scenario_C
        = Raised AttributeError).
Proof.
  apply (@C2_unparsable_timestamp Strptime.strptime scenario_C 0 scenario_C
           (u "32/13/21") (u "7:59 pm") (u "Ananya") (u "Oops"));
    reflexivity.
Defined.

(** C2, as stated, fails on scenario C: the timestamp does not parse, and
    an error reaches the caller. *)
Lemma C2_counterexample :
  Strptime.strptime (u "32/13/21, 7:59 pm") = None
  /\ messages Strptime.strptime scenario_C
     = [ mkMessage None (u "32/13/21") (u "7:59 pm") (u "Ananya") (u "Oops") ]
  /\ parse_whatsapp_chat Strptime.strptime scenario_C = Raised AttributeError.
Proof. repeat split. Qed.

(** C3: while a message is open, a line that is not a header and is not
    empty once trimmed adds a newline and the trimmed line to the body; one
    that is empty once trimmed changes nothing; over several such lines
    the additions come in the order of the lines; and the two lines of
    scenario B give one message with the body "Line one\nLine two". *)
Theorem C3_continuation_lines (strptime : str -> option DateTime) :
  (forall m out line,
      is_header line = false -> strip line <> [] ->
      loop_body strptime (Some m, out) line
      = (Some (with_message m (message m ++ [ch "010"] ++ strip line)), out))
  /\ (forall m out line,
         is_header line = false -> strip line = [] ->
         loop_body strptime (Some m, out) line = (Some m, out))
  /\ (forall m out cs,
         forallb not_header cs = true ->
         fold_left (loop_body strptime) cs (Some m, out)
         = (Some (with_message m (message m ++ continuation cs)), out))
  /\ messages strptime scenario_B
     = [ {| datetime := strptime (u "08/11/21, 7:59 pm");
            date := u "08/11/21";
            time := u "7:59 pm";
            sender := u "Ananya";
            message := u "Line one" ++ [ch "010"] ++ u "Line two" |} ].
Proof.
  split; [|split; [|split]].
  - intros m out line Hl Hs. rewrite loop_body_other by exact Hl.
    unfold continue_with, append_line, with_message. simpl.
    destruct (strip line); [contradiction|reflexivity].
  - intros m out line Hl Hs. rewrite loop_body_other by exact Hl.
    unfold continue_with. simpl. now rewrite Hs.
  - intros m out cs. revert m out.
    induction cs as [|c cs IH]; intros m out H.
    + unfold continuation. simpl. rewrite app_nil_r. now destruct m.
    + apply andb_prop in H as [Hc Hcs]. unfold not_header in Hc.
      apply negb_true_iff in Hc. simpl fold_left.
      rewrite loop_body_other by exact Hc. cbn [option_map fst snd].
      rewrite IH by exact Hcs. f_equal. f_equal.
      unfold with_message, continue_with, append_line, continuation. simpl.
      destruct (truthy (strip c)); simpl; [|reflexivity].
      now rewrite <- app_assoc.
  - reflexivity.
Qed.

Lemma C3_continuation_lines_witness :
  fold_left (loop_body Strptime.strptime) [u "Line two"; u "  "; u " three "]
            (Some (mkMessage None (u "08/11/21") (u "7:59 pm") (u "Ananya")
                             (u "Line one")), [])
  = (Some (mkMessage None (u "08/11/21") (u "7:59 pm") (u "Ananya")
                     (u "Line one" ++ [ch "010"] ++ u "Line two"
                        ++ [ch "010"] ++ u "three")), []).
Proof.
  apply (proj1 (proj2 (proj2 (C3_continuation_lines Strptime.strptime)))
           (mkMessage None (u "08/11/21") (u "7:59 pm") (u "Ananya")
                      (u "Line one")) []
           [u "Line two"; u "  "; u " three "]).
  reflexivity.
Defined.

Lemma count_headers_firstn_none (cs : list str) (k : nat) :
  forallb not_header cs = true -> count_headers (firstn k cs) = 0%nat.
Proof.
  intros H. apply count_headers_none.
  rewrite forallb_forall in *. intros x Hx. apply H.
  eapply In_nth_error in Hx as [n Hn].
  apply nth_error_In with (n := n).
  rewrite nth_error_firstn in Hn. destruct (n <? k)%nat; [exact Hn|discriminate].
Qed.

Lemma count_headers_cons (x : str) (l : list str) :
  count_headers (x :: l)
  = ((if is_header x then 1 else 0) + count_headers l)%nat.
Proof. unfold count_headers. simpl. now destruct (is_header x). Qed.

(** The rank of the block of a line is the number of headers up to that
    line, less one. *)
Lemma in_block_rank (lines : list str) (i : nat) (b : block) (j : nat) :
  in_block lines i b j -> S j = count_headers (firstn (S i) lines).
Proof.
  intros (pre & post & -> & [Hh Hcs] & _ & [Hlo Hhi] & ->).
  destruct b as [h cs]. unfold block_lines in *. cbn [fst snd length] in *.
  rewrite firstn_app.
  rewrite (@firstn_all2 _ (S i) pre) by lia.
  replace (S i - length pre)%nat with (S (i - length pre)) by lia.
  simpl firstn. rewrite count_headers_app.
  rewrite count_headers_cons, Hh, firstn_app.
  replace (i - length pre - length cs)%nat with 0%nat by lia.
  rewrite firstn_O, app_nil_r.
  rewrite count_headers_firstn_none by exact Hcs. lia.
Qed.

Lemma assigned_unique (strptime : str -> option DateTime)
      (lines : list str) (i j j' : nat) :
  assigned strptime lines i j -> assigned strptime lines i j' -> j' = j.
Proof.
  intros (b & Hb & _) (b' & Hb' & _).
  apply in_block_rank in Hb, Hb'. congruence.
Qed.

(** A line at or after a header lies in a block. *)
Lemma in_block_exists (lines : list str) (i0 i : nat) (h l : str) :
  nth_error lines i0 = Some h -> is_header h = true -> (i0 <= i)%nat ->
  nth_error lines i = Some l ->
  exists b j, in_block lines i b j /\ (l = fst b \/ In l (snd b)).
Proof.
  intros H0 Hh Hle Hi.
  apply nth_error_split in Hi as (A & B & -> & <-).
  assert (Hc : (0 < count_headers (A ++ [l]))%nat).
  { assert (Hin : In h (A ++ [l])).
    { apply in_or_app. destruct (Nat.eq_dec i0 (length A)) as [->|Hne].
      - rewrite nth_error_middle in H0. inversion H0. right. now left.
      - left. rewrite nth_error_app1 in H0 by lia.
        now apply nth_error_In in H0. }
    assert (Hf : In h (filter is_header (A ++ [l])))
      by (apply filter_In; now split).
    unfold count_headers.
    destruct (filter is_header (A ++ [l])); [easy|simpl; lia]. }
  apply last_header in Hc as (pre & x & cs1 & E & Hx & Hcs1).
  destruct (next_header B) as (cs2 & post & -> & Hcs2 & Hpost).
  exists (x, cs1 ++ cs2), (count_headers pre). split.
  - exists pre, post. unfold block_lines. cbn [fst snd].
    split.
    { change (A ++ l :: cs2 ++ post) with (A ++ [l] ++ cs2 ++ post).
      rewrite app_assoc, E. rewrite <- !app_assoc. simpl.
      now rewrite <- app_assoc. }
    split; [split; [exact Hx | cbn [snd]; now rewrite forallb_app, Hcs1, Hcs2]|].
    split; [exact Hpost|]. split; [|reflexivity].
    apply (f_equal (@length str)) in E. rewrite !length_app in E. simpl in *.
    rewrite length_app. lia.
  - cbn [fst snd].
    destruct cs1 as [|z cs1].
    + left. apply app_inj_tail in E as [_ ->]. reflexivity.
    + right. destruct (@exists_last _ (z :: cs1)) as (cs & y & Ey); [easy|].
      rewrite Ey in *.
      change (pre ++ x :: cs ++ [y]) with (pre ++ (x :: cs) ++ [y]) in E.
      rewrite app_assoc in E. apply app_inj_tail in E as [_ ->].
      apply in_or_app. left. apply in_or_app. right. now left.
Qed.

(** A line before the first header lies in no block. *)
Lemma before_headers_unassigned (strptime : str -> option DateTime)
      (lines : list str) (i : nat) :
  (forall i0 h, (i0 <= i)%nat -> nth_error lines i0 = Some h ->
                is_header h = false) ->
  forall j, ~ assigned strptime lines i j.
Proof.
  intros Hno j (b & (pre & post & E & [Hh _] & _ & [Hlo _] & _) & _).
  assert (Hn : nth_error lines (length pre) = Some (fst b))
    by (rewrite E; unfold block_lines; simpl; apply nth_error_middle).
  rewrite (Hno _ _ Hlo Hn) in Hh. discriminate.
Qed.

(** Lines before the first header do not change the output. *)
Lemma before_headers_dropped (strptime : str -> option DateTime)
      (lines : list str) (k : nat) :
  (forall i0 h, (i0 < k)%nat -> nth_error lines i0 = Some h ->
                is_header h = false) ->
  parse_lines strptime (skipn k lines) = parse_lines strptime lines.
Proof.
  intros Hno. rewrite <- (firstn_skipn k lines) at 2.
  rewrite !parse_lines_blocks, blocks_app_noise; [reflexivity|].
  apply forallb_forall. intros x Hx.
  apply In_nth_error in Hx as [n Hn].
  assert (Hk : (n < k)%nat).
  { destruct (Nat.ltb_spec n k) as [H|H]; [exact H|].
    rewrite nth_error_firstn in Hn.
    destruct (Nat.ltb_spec n k); [lia | discriminate]. }
  rewrite nth_error_firstn in Hn.
  destruct (Nat.ltb_spec n k); [|lia].
  unfold not_header. now rewrite (Hno _ _ Hk Hn).
Qed.

(** C4, as it holds: every line that is not empty once trimmed and that
    comes at or after the first header is assigned to exactly one message
    of the output: it lies in one block, as its header or as one of its
    continuation lines, the message of that block is in the output at the
    rank of the block, and its body is the first line of the header
    followed by the continuation lines that are not blank.  A line that
    is not empty once trimmed and comes before the first header is
    assigned to no message, and the output is the same without the lines
    before the first header. *)
Theorem C4_lines_assigned (strptime : str -> option DateTime)
        (lines : list str) :
  (forall (i0 i : nat) (h l : str),
      nth_error lines i0 = Some h -> is_header h = true -> (i0 <= i)%nat ->
      nth_error lines i = Some l -> strip l <> [] ->
      exists j b,
        assigned strptime lines i j
        /\ (forall j', assigned strptime lines i j' -> j' = j)
        /\ in_block lines i b j
        /\ (l = fst b \/ In l (snd b))
        /\ nth_error (parse_lines strptime lines) j
           = Some (block_message strptime b)
        /\ message (block_message strptime b)
           = first_line (fst b) ++ continuation (snd b))
  /\ (forall (i : nat) (l : str),
         nth_error lines i = Some l -> strip l <> [] ->
         (forall i0 h, (i0 <= i)%nat -> nth_error lines i0 = Some h ->
                       is_header h = false) ->
         (forall j, ~ assigned strptime lines i j)
         /\ parse_lines strptime (skipn (S i) lines)
            = parse_lines strptime lines).
Proof.
  split.
  - intros i0 i h l H0 Hh Hle Hi _.
    destruct (in_block_exists lines H0 Hh Hle Hi) as (b & j & Hb & Hl).
    assert (Hn : nth_error (parse_lines strptime lines) j
                 = Some (block_message strptime b)).
    { destruct Hb as (pre & post & -> & Hok & Hpost & _ & ->).
      now apply parse_lines_nth. }
    assert (Ha : assigned strptime lines i j) by (exists b; now split).
    exists j, b. repeat split; auto.
    + intros j' Ha'. exact (assigned_unique Ha Ha').
    + unfold block_message. rewrite continue_body. f_equal.
      unfold first_line, new_message.
      now destruct (header_groups (fst b)) as [[[d t] sn] tx].
  - intros i l _ _ Hno. split.
    + now apply before_headers_unassigned.
    + apply before_headers_dropped. intros i0 h Hlt. apply Hno. lia.
Qed.

Lemma C4_lines_assigned_witness :
  (exists j b,
      assigned Strptime.strptime (readlines scenario_B) 1 j
      /\ (forall j', assigned Strptime.strptime (readlines scenario_B) 1 j'
                     -> j' = j)
      /\ in_block (readlines scenario_B) 1 b j
      /\ (u "Line two" = fst b \/ In (u "Line two") (snd b))
      /\ nth_error (parse_lines Strptime.strptime (readlines scenario_B)) j
         = Some (block_message Strptime.strptime b)
      /\ message (block_message Strptime.strptime b)
         = first_line (fst b) ++ continuation (snd b))
  /\ ((forall j, ~ assigned Strptime.strptime [u "hello"; scenario_A] 0 j)
      /\ parse_lines Strptime.strptime (skipn 1 [u "hello"; scenario_A])
         = parse_lines Strptime.strptime [u "hello"; scenario_A]).
Proof.
  split.
  - apply (proj1 (C4_lines_assigned Strptime.strptime (readlines scenario_B))
             0%nat 1%nat
             (u "08/11/21, 7:59 pm - Ananya: Line one" ++ [ch "010"])
             (u "Line two"));
      [reflexivity | reflexivity | lia | reflexivity | discriminate].
  - apply (proj2 (C4_lines_assigned Strptime.strptime
                    [u "hello"; scenario_A]) 0%nat (u "hello"));
      [reflexivity | discriminate |].
    intros i0 h Hle Hn. assert (E : i0 = 0%nat) by lia. subst i0.
    inversion Hn. reflexivity.
Defined.

(** C4, as stated, fails: a line before the first header is not empty and
    is assigned to no message. *)
Lemma C4_counterexample :
  ~ (forall i l,
        nth_error [u "hello"] i = Some l -> strip l <> [] ->
        exists j, assigned Strptime.strptime [u "hello"] i j).
Proof.
  intros H. destruct (H 0%nat (u "hello")) as (j & b & Hb & _);
    [reflexivity | discriminate |].
  destruct Hb as (pre & post & E & [Hh _] & _).
  destruct b as [h cs]. unfold block_lines in E. cbn [fst snd] in *.
  destruct pre as [|p pre].
  - simpl in E. inversion E; subst. vm_compute in Hh. discriminate.
  - destruct pre; simpl in E; inversion E.
Qed.

(** ** The line classifier, as specified *)

Lemma after_colon_app (a b : str) :
  no_colon a -> after_colon (a ++ ch ":" :: b) = b.
Proof.
  induction 1 as [|c a Hc Ha IH]; simpl; [reflexivity|].
  destruct (N.eqb_spec c 58) as [E|_]; [now elim Hc | exact IH].
Qed.

Lemma header_first_decimal (s d t sn tx : str) :
  header_match s = Some (d, t, sn, tx) ->
  exists c s', s = c :: s' /\ Unicode.isdecimal c = true.
Proof.
  intros H. apply header_match_shape in H
    as (w1 & w2 & w3 & w4 & tail & -> & Hd & _).
  apply date_token in Hd as [_ (c & d' & -> & Hc)].
  exists c. eexists. split; [reflexivity|exact Hc].
Qed.

(** In a header, something follows the colon and the space that end the
    sender. *)
Lemma header_after_colons (s d t sn tx : str) :
  header_match s = Some (d, t, sn, tx) ->
  exists w tail, after_colon (after_colon s) = w :: tx ++ tail /\ tx <> [].
Proof.
  intros H. apply header_match_shape in H
    as (w1 & w2 & w3 & w4 & tail & -> & Hd & Ht & Hsn & Htx & S1 & S2 & S3 & S4 & _).
  apply date_token in Hd as [Hd _].
  apply time_token in Ht as (b1 & b2 & -> & Hb1 & Hb2).
  apply sender_token in Hsn as [_ Hsn].
  apply text_token in Htx as [Htx _].
  exists w4, tail. split; [|exact Htx].
  replace (d ++ [ch ","; w1] ++ (b1 ++ ch ":" :: b2) ++ [w2; ch "-"; w3]
             ++ sn ++ [ch ":"; w4] ++ tx ++ tail)
    with ((d ++ [ch ","; w1] ++ b1) ++ ch ":"
            :: ((b2 ++ [w2; ch "-"; w3] ++ sn) ++ ch ":" :: w4 :: tx ++ tail))
    by (repeat first [rewrite <- app_assoc | progress simpl]; reflexivity).
  rewrite after_colon_app, after_colon_app; [reflexivity| |].
  - repeat apply no_colon_app; auto; repeat constructor;
      auto using space_not_colon; discriminate.
  - repeat apply no_colon_app; auto; repeat constructor;
      auto using space_not_colon; discriminate.
Qed.

(** C5, as it holds: the grammar requires a message that is not empty.
    Every header the classifier accepts has a first body line that is not
    empty, also once trimmed; and a line "<date>, <time> - <sender>: "
    with nothing after the separator is not a header, for every date,
    time and sender token of the grammar. *)
Theorem C5_message_required :
  (forall line d t sn tx,
      header_match (strip line) = Some (d, t, sn, tx) ->
      tx <> [] /\ strip tx <> [])
  /\ (forall d t sn,
         Re.fullmatch date_re d = true -> Re.fullmatch time_re t = true ->
         Re.fullmatch sender_re sn = true ->
         is_header (d ++ u ", " ++ t ++ u " - " ++ sn ++ u ": ") = false).
Proof.
  split.
  - intros line d t sn tx H.
    pose proof H as H'. apply header_match_shape in H'
      as (w1 & w2 & w3 & w4 & tail & E & _ & _ & _ & Htx & _ & _ & _ & _ & Ht).
    apply text_token in Htx as [Htx Hnl]. split; [exact Htx|].
    destruct (strip_ends line) as [E0 | (a & c & E1 & Hc)].
    + rewrite E0 in E. destruct d; discriminate.
    + (* the last character of the line is the last character of the text *)
      rewrite E1 in E.
      assert (Hlast : exists tx', tx = tx' ++ [c]).
      { destruct Ht as [-> | ->].
        - rewrite app_nil_r in E.
          destruct (@exists_last _ tx Htx) as (tx' & y & ->).
          exists tx'. f_equal. f_equal.
          repeat rewrite app_assoc in E.
          apply app_inj_tail in E as [_ ->]. reflexivity.
        - exfalso. repeat rewrite app_assoc in E.
          apply app_inj_tail in E as [_ ->]. discriminate. }
      destruct Hlast as (tx' & ->).
      unfold strip. destruct (lstrip_suffix (tx' ++ [c])) as (ws & Ews & Hws).
      destruct (lstrip (tx' ++ [c])) as [|y r] eqn:El.
      * rewrite app_nil_r in Ews. rewrite <- Ews in Hws.
        rewrite forallb_app in Hws. simpl in Hws. rewrite Hc in Hws.
        rewrite andb_false_r in Hws. discriminate.
      * destruct (@exists_last _ (y :: r)) as (r' & z & Er); [easy|].
        rewrite Er in *. assert (z = c).
        { rewrite app_assoc in Ews. now apply app_inj_tail in Ews as [_ ->]. }
        subst z. rewrite rstrip_last by exact Hc. now destruct r'.
  - intros d t sn Hd Ht Hsn.
    apply ReFacts.fullmatch_sound in Hd, Ht, Hsn.
    apply date_token in Hd as [Hd (c & d' & -> & Hc)].
    apply time_token in Ht as (b1 & b2 & -> & Hb1 & Hb2).
    apply sender_token in Hsn as [_ Hsn].
    unfold is_header.
    destruct (header_match (strip _)) as [[[[d1 t1] sn1] tx1]|] eqn:H;
      [exfalso|reflexivity].
    apply header_after_colons in H as (w & tail & H & _).
    assert (E : strip ((c :: d') ++ u ", " ++ (b1 ++ ch ":" :: b2) ++ u " - "
                         ++ sn ++ u ": ")
                = ((c :: d') ++ u ", " ++ b1) ++ ch ":"
                    :: ((b2 ++ u " - " ++ sn) ++ ch ":" :: [])).
    { replace ((c :: d') ++ u ", " ++ (b1 ++ ch ":" :: b2) ++ u " - "
                 ++ sn ++ u ": ")
        with ((c :: (d' ++ u ", " ++ b1 ++ ch ":" :: b2 ++ u " - " ++ sn)
                 ++ [ch ":"]) ++ [ch " "])
        by (repeat first [rewrite <- app_assoc | progress simpl]; reflexivity).
      rewrite strip_trailing by reflexivity. unfold strip.
      rewrite lstrip_head by now apply decimal_not_space.
      change (c :: (d' ++ u ", " ++ b1 ++ ch ":" :: b2 ++ u " - " ++ sn)
                ++ [ch ":"])
        with ((c :: d' ++ u ", " ++ b1 ++ ch ":" :: b2 ++ u " - " ++ sn)
                ++ [ch ":"]).
      rewrite rstrip_last by reflexivity.
      repeat first [rewrite <- app_assoc | progress simpl]. reflexivity. }
    rewrite E in H. rewrite after_colon_app in H.
    + rewrite after_colon_app in H; [discriminate|].
      repeat apply no_colon_app; auto; repeat constructor; discriminate.
    + apply (@no_colon_app (c :: d') (u ", " ++ b1)); [exact Hd|].
      apply no_colon_app; auto. repeat constructor; discriminate.
Qed.

Lemma C5_message_required_witness :
  is_header (u "08/11/21" ++ u ", " ++ u "7:59 pm" ++ u " - " ++ u "Ananya"
               ++ u ": ") = false.
Proof.
  apply (proj2 C5_message_required (u "08/11/21") (u "7:59 pm") (u "Ananya"));
    reflexivity.
Defined.

(** C5, as stated, fails: the line of Ananya with an empty remainder is
    not classified as a header, trimmed or not. *)
Lemma C5_counterexample :
  header_match (strip (u "08/11/21, 7:59 pm - Ananya: ")) = None
  /\ header_match (u "08/11/21, 7:59 pm - Ananya: ") = None.
Proof. split; reflexivity. Qed.

(** C6, as it holds: the line is trimmed on both sides before it is
    matched against the grammar, which is anchored at the start of the
    trimmed line.  Whitespace before a line changes nothing to its
    classification: header text after leading whitespace is a header;
    only the pattern alone, on the line as it is, does not match. *)
Theorem C6_leading_whitespace (ws text : str) :
  forallb Unicode.isspace ws = true ->
  header_match (strip (ws ++ text)) = header_match (strip text)
  /\ is_header (ws ++ text) = is_header text
  /\ (ws <> [] -> header_match (ws ++ text) = None).
Proof.
  intros H. split; [|split].
  - now rewrite strip_leading.
  - unfold is_header. now rewrite strip_leading.
  - intros Hne. destruct ws as [|c ws]; [contradiction|].
    simpl in H. apply andb_prop in H as [Hc _].
    destruct (header_match ((c :: ws) ++ text)) as [[[[d t] sn] tx]|] eqn:E;
      [exfalso|reflexivity].
    apply header_first_decimal in E as (c' & s' & E & Hd).
    simpl in E. inversion E; subst c'.
    apply decimal_not_space in Hd. congruence.
Qed.

Lemma C6_leading_whitespace_witness :
  header_match (strip (u "  " ++ scenario_A)) = header_match (strip scenario_A)
  /\ is_header (u "  " ++ scenario_A) = is_header scenario_A
  /\ (u "  " <> [] -> header_match (u "  " ++ scenario_A) = None).
Proof. apply (@C6_leading_whitespace (u "  ") scenario_A). reflexivity. Defined.

(** C6, as stated, fails: header text after two spaces is classified as a
    header, and starts a message of its own. *)
Lemma C6_counterexample :
  is_header scenario_A = true
  /\ header_match (strip (u "  " ++ scenario_A))
     = Some (u "08/11/21", u "7:59 pm", u "Ananya", u "Hello there")
  /\ length (messages Strptime.strptime
               (scenario_A ++ [ch "010"] ++ u "  " ++ scenario_A)) = 2%nat.
Proof. repeat split. Qed.

Lemma no_colon_strip (s : str) : no_colon s -> no_colon (strip s).
Proof.
  unfold no_colon. rewrite !Forall_forall. intros H c Hc.
  apply H. now apply strip_In.
Qed.

(** C7, as it holds: the sender the pattern extracts is not empty and
    contains no colon, and the [sender] field, which is that group
    trimmed, contains no colon.  (The field can be empty: a sender made
    of whitespace is accepted.) *)
Theorem C7_sender (strptime : str -> option DateTime) (line d t sn tx : str) :
  header_match (strip line) = Some (d, t, sn, tx) ->
  sn <> [] /\ no_colon sn
  /\ sender (new_message strptime (d, t, sn, tx)) = strip sn
  /\ no_colon (sender (new_message strptime (d, t, sn, tx))).
Proof.
  intros H. apply header_match_shape in H
    as (w1 & w2 & w3 & w4 & tail & _ & _ & _ & Hsn & _).
  apply sender_token in Hsn as [Hne Hnc].
  repeat split; auto. simpl. now apply no_colon_strip.
Qed.

Lemma C7_sender_witness :
  u "Ananya" <> [] /\ no_colon (u "Ananya")
  /\ sender (new_message Strptime.strptime
               (u "08/11/21", u "7:59 pm", u "Ananya", u "Hello there"))
     = strip (u "Ananya")
  /\ no_colon (sender (new_message Strptime.strptime
               (u "08/11/21", u "7:59 pm", u "Ananya", u "Hello there"))).
Proof.
  apply (@C7_sender Strptime.strptime scenario_A). reflexivity.
Defined.

(** C7, as stated, fails: a header whose sender is one space is accepted,
    and the sender of its message is empty. *)
Lemma C7_counterexample :
  header_match (strip (u "08/11/21, 7:59 pm -  : hi"))
  = Some (u "08/11/21", u "7:59 pm", u " ", u "hi")
  /\ map sender (messages Strptime.strptime
                   (u "08/11/21, 7:59 pm -  : hi")) = [[]].
Proof. split; reflexivity. Qed.

(** ** The round trip *)

Lemma split_newline_single (a : str) : ~ In 10 a -> split_newline a = [a].
Proof.
  induction a as [|c a IH]; simpl; [reflexivity|]. intros H.
  destruct (N.eqb_spec c 10) as [->|_]; [elim H; now left|].
  rewrite IH; [reflexivity|]. intros Hin. apply H. now right.
Qed.

Lemma split_newline_app (a s : str) :
  ~ In 10 a -> split_newline (a ++ 10 :: s) = a :: split_newline s.
Proof.
  induction a as [|c a IH]; simpl; [reflexivity|]. intros H.
  destruct (N.eqb_spec c 10) as [->|_]; [elim H; now left|].
  rewrite IH; [reflexivity|]. intros Hin. apply H. now right.
Qed.

Lemma split_continuation (cs : list str) :
  Forall (fun l => ~ In 10 (strip l)) cs ->
  forall a, ~ In 10 a ->
    split_newline (a ++ continuation cs) = a :: filter truthy (map strip cs).
Proof.
  unfold continuation.
  induction 1 as [|c cs Hc Hcs IH]; intros a Ha; simpl.
  - rewrite app_nil_r. now apply split_newline_single.
  - destruct (truthy (strip c)); simpl; [|now apply IH].
    rewrite split_newline_app by exact Ha. f_equal. now apply IH.
Qed.

Lemma split_keepends_lines (s : str) :
  forall cur l, ~ In 10 cur -> In l (split_keepends cur s) ->
    exists body, ~ In 10 body /\ (l = body \/ l = body ++ [10]).
Proof.
  induction s as [|c s IH]; intros cur l Hcur Hl; simpl in Hl.
  - destruct cur as [|x cur]; [contradiction|].
    destruct Hl as [<-|[]]. exists (rev (x :: cur)). split; [|now left].
    intros Hin. apply in_rev in Hin. contradiction.
  - destruct (N.eqb_spec c 10) as [->|Hc].
    + destruct Hl as [<-|Hl].
      * exists (rev cur). split; [|now right].
        intros Hin. apply in_rev in Hin. contradiction.
      * apply (IH [] l); auto.
    + apply (IH (c :: cur) l); auto. intros [E|Hin]; [now elim Hc|contradiction].
Qed.

(** A line of the file has a newline at its end only. *)
Lemma readlines_no_newline (text l : str) :
  In l (readlines text) -> ~ In 10 (strip l).
Proof.
  intros Hl. apply split_keepends_lines in Hl as (body & Hb & [->| ->]); auto.
  - intros Hin. apply Hb. now apply strip_In.
  - rewrite strip_trailing by reflexivity. intros Hin. apply Hb. now apply strip_In.
Qed.

Lemma blocks_lines_In (lines : list str) (b : block) (l : str) :
  In b (snd (blocks lines)) -> In l (block_lines b) -> In l lines.
Proof.
  intros Hb Hl. rewrite (blocks_partition lines). apply in_or_app. right.
  apply in_flat_map. now exists b.
Qed.

(** C8, as it holds: for a message whose header line is written with
    nothing around its sender and its text but the separators of the
    format, [sender + ": " + message] after the prefix of the header
    gives, line for line, the trimmed header line and then the trimmed
    lines of the block that are not blank.  (Blank lines and the
    whitespace around a line are not given back.) *)
Theorem C8_roundtrip_trimmed (strptime : str -> option DateTime) (text : str)
        (j : nat) (b : block) (m : Message) :
  nth_error (snd (blocks (readlines text))) j = Some b ->
  nth_error (messages strptime text) j = Some m ->
  plain_header (fst b) ->
  split_newline (reassemble (header_prefix (fst b)) m)
  = strip (fst b) :: filter truthy (map strip (snd b)).
Proof.
  unfold messages. rewrite parse_lines_blocks.
  intros Hb Hm Hp. rewrite nth_error_map, Hb in Hm. simpl in Hm.
  inversion Hm; subst m; clear Hm.
  apply nth_error_In in Hb.
  unfold reassemble, block_message. rewrite continue_body.
  destruct (continue_fields (snd b)
              (new_message strptime (header_groups (fst b)))) as (_ & _ & _ & ->).
  unfold plain_header in Hp. unfold new_message.
  destruct (header_groups (fst b)) as [[[d t] sn] tx] eqn:G. simpl.
  assert (E : header_prefix (fst b) ++ strip sn ++ u ": " ++ strip tx
                 ++ continuation (snd b)
               = strip (fst b) ++ continuation (snd b))
    by (rewrite Hp; repeat first [rewrite <- app_assoc | progress simpl];
        reflexivity).
  etransitivity; [apply (f_equal split_newline); exact E|].
  apply split_continuation.
  - apply Forall_forall. intros l Hl. apply readlines_no_newline with (text := text).
    apply (blocks_lines_In _ Hb). now right.
  - apply readlines_no_newline with (text := text).
    apply (blocks_lines_In _ Hb). now left.
Qed.

Lemma C8_roundtrip_trimmed_witness :
  split_newline
    (reassemble
       (header_prefix (u "08/11/21, 7:59 pm - Ananya: Line one" ++ [ch "010"]))
       (mkMessage (Some (mkDateTime 2021 11 8 19 59)) (u "08/11/21")
                  (u "7:59 pm") (u "Ananya")
                  (u "Line one" ++ [ch "010"] ++ u "Line two")))
  = [u "08/11/21, 7:59 pm - Ananya: Line one"; u "Line two"].
Proof.
  apply (@C8_roundtrip_trimmed Strptime.strptime scenario_B 0
           (u "08/11/21, 7:59 pm - Ananya: Line one" ++ [ch "010"],
            [u "Line two"]));
    reflexivity.
Defined.

(** C8, as stated, fails: the indentation of a continuation line is not
    in the message, so that the line is not given back as it was. *)
Lemma C8_counterexample : ~ roundtrip Strptime.strptime indented_transcript.
Proof.
  intros H.
  specialize (H 0%nat
                (u "08/11/21, 7:59 pm - Ananya: Line one" ++ [ch "010"],
                 [u "  Line two" ++ [ch "010"]])
                (mkMessage (Some (mkDateTime 2021 11 8 19 59)) (u "08/11/21")
                           (u "7:59 pm") (u "Ananya")
                           (u "Line one" ++ [ch "010"] ++ u "Line two"))
                eq_refl eq_refl).
  vm_compute in H. discriminate.
Qed.

(** ** Binary64: the comparisons of [detect_script] are exact *)

Module Binary64Facts.

Import Binary64.
Local Open Scope Z_scope.

(** [ilog2_ratio a b] is the binary exponent of [a / b]. *)
Lemma ilog2_ratio_spec (a b : Z) :
  0 < a <= b ->
  exists n, ilog2_ratio a b = - n /\ 0 <= n /\ b <= a * 2 ^ n < 2 * b.
Proof.
  intros [Ha Hab]. unfold ilog2_ratio.
  assert (Hb : 0 < b) by lia.
  pose proof (Z.log2_spec a Ha) as [La Ua].
  pose proof (Z.log2_spec b Hb) as [Lb Ub].
  pose proof (Z.log2_nonneg a) as Na.
  pose proof (Z.log2_le_mono a b Hab) as Hk.
  set (la := Z.log2 a) in *. set (lb := Z.log2 b) in *.
  rewrite Z.max_l by lia. rewrite Z.max_r by lia.
  replace (- (la - lb)) with (lb - la) by lia.
  rewrite Z.pow_0_r, Z.mul_1_r.
  assert (HP : 0 < 2 ^ (lb - la)) by (apply Z.pow_pos_nonneg; lia).
  assert (HA : 0 < 2 ^ la) by (apply Z.pow_pos_nonneg; lia).
  assert (EB : 2 ^ lb = 2 ^ la * 2 ^ (lb - la))
    by (rewrite <- Z.pow_add_r by lia; f_equal; lia).
  unfold Z.succ in *. rewrite Z.pow_add_r in Ua, Ub by lia.
  change (2 ^ 1) with 2 in *.
  set (P := 2 ^ (lb - la)) in *. set (A := 2 ^ la) in *. set (B := 2 ^ lb) in *.
  assert (L1 : B <= a * P) by (rewrite EB; nia).
  assert (L2 : a * P < 2 * B) by (rewrite EB; nia).
  destruct (Z.leb_spec b (a * P)) as [Hc|Hc].
  - exists (lb - la). split; [lia|]. split; [lia|]. fold P. lia.
  - exists (lb - la + 1). split; [lia|]. split; [lia|].
    rewrite Z.pow_add_r by lia. change (2 ^ 1) with 2. fold P. lia.
Qed.

(** The mantissa and the exponent of a quotient below 1. *)
Lemma round_ratio_spec (a b : Z) :
  0 < a <= b ->
  exists n q r,
    0 <= n /\ b <= a * 2 ^ n < 2 * b /\
    a * 2 ^ (n + 52) = q * b + r /\ 0 <= r < b /\
    round_ratio a b
    = mk (if (b <? 2 * r) || ((b =? 2 * r) && Z.odd q) then q + 1 else q)
         (- (n + 52)).
Proof.
  intros H. destruct (ilog2_ratio_spec H) as (n & En & Hn & Hr).
  unfold round_ratio. destruct (Z.eqb_spec a 0) as [|_]; [lia|].
  rewrite En. cbv zeta.
  replace (- n - 52) with (- (n + 52)) by lia.
  rewrite (Z.max_l 0 (- (n + 52))) by lia.
  rewrite (Z.max_r 0 (- - (n + 52))) by lia.
  rewrite Z.opp_involutive, Z.pow_0_r, Z.mul_1_r.
  exists n, (a * 2 ^ (n + 52) / b), (a * 2 ^ (n + 52) mod b).
  split; [exact Hn|]. split; [exact Hr|].
  split; [rewrite (Z.mul_comm (_ / b) b); apply Z.div_mod; lia|].
  split; [apply Z.mod_pos_bound; lia|reflexivity].
Qed.

(** [round_ratio] is the division of the IEEE 754 specification, on every
    ratio of two integers up to 120. *)
Lemma round_ratio_ieee :
  forallb (fun p => same_value (round_ratio (fst p) (snd p))
                               (ieee_div (fst p) (snd p)))
          (ratios_upto 120) = true.
Proof. vm_compute. reflexivity. Qed.

Lemma literal_3_1 : literal 3 1 = mk 5404319552844595 (-54).
Proof. reflexivity. Qed.

Lemma literal_5_2 : literal 5 2 = mk 7205759403792794 (-57).
Proof. reflexivity. Qed.

(** [h / t > 0.3] tells whether the exact ratio is above 3/10. *)
Lemma gt_0_3_exact (h t : Z) :
  0 <= h <= t -> 0 < t < 2 ^ 52 ->
  gtb (round_ratio h t) (literal 3 1) = (3 * t <? 10 * h).
Proof.
  intros Hh Ht. rewrite literal_3_1.
  destruct (Z.eq_dec h 0) as [->|Hne].
  { change (round_ratio 0 t) with (mk 0 0).
    destruct (Z.ltb_spec (3 * t) (10 * 0)); [lia|reflexivity]. }
  destruct (@round_ratio_spec h t) as (n & q & r & Hn & Hr & Eq & Hrem & ->);
    [lia|].
  set (m := if (t <? 2 * r) || ((t =? 2 * r) && Z.odd q) then q + 1 else q).
  assert (Hq : 2 ^ 52 <= q < 2 ^ 53).
  { rewrite Z.pow_add_r in Eq by lia. split; nia. }
  assert (Hm : q <= m <= q + 1) by (unfold m; destruct (_ || _); lia).
  unfold gtb. cbn [mant expo].
  destruct (Z.lt_trichotomy n 2) as [Hlt | [-> | Hgt]].
  - (* the quotient is 1/2 or more *)
    rewrite Z.min_r by lia.
    replace (-54 - -54) with 0 by lia. rewrite Z.pow_0_r, Z.mul_1_r.
    replace (- (n + 52) - -54) with (2 - n) by lia.
    assert (HX : 2 <= 2 ^ (2 - n)).
    { change 2 with (2 ^ 1) at 1. apply Z.pow_le_mono_r; lia. }
    assert (HY : 0 < 2 ^ n <= 2).
    { split; [apply Z.pow_pos_nonneg; lia|].
      change 2 with (2 ^ 1) at 2. apply Z.pow_le_mono_r; lia. }
    change (2 ^ 52) with 4503599627370496 in *.
    set (X := 2 ^ (2 - n)) in *. set (Y := 2 ^ n) in *.
    destruct (Z.ltb_spec 5404319552844595 (m * X));
      destruct (Z.ltb_spec (3 * t) (10 * h)); try reflexivity; nia.
  - (* the quotient is in the binade of 0.3 *)
    replace (- (2 + 52)) with (-54) by lia. rewrite Z.min_id.
    replace (-54 - -54) with 0 by lia. rewrite Z.pow_0_r, !Z.mul_1_r.
    change (2 ^ 2) with 4 in Hr. change (2 ^ (2 + 52)) with 18014398509481984 in Eq.
    change (2 ^ 52) with 4503599627370496 in *.
    change (2 ^ 53) with 9007199254740992 in *.
    destruct (Z.ltb_spec (3 * t) (10 * h)) as [Hgt | Hle].
    + (* above 3/10: the mantissa is above that of 0.3 *)
      destruct (Z.ltb_spec 5404319552844595 m) as [|Hm']; [reflexivity|exfalso].
      assert (Hq' : q <= 5404319552844595) by lia.
      assert (E10 : 10 * (q * t + r) >= 54043195528445952 * t + 18014398509481984)
        by lia.
      assert (Hq5 : q = 5404319552844595) by nia.
      subst q. unfold m in Hm'. simpl Z.odd in Hm'.
      rewrite andb_true_r in Hm'.
      destruct (Z.ltb_spec t (2 * r)); destruct (Z.eqb_spec t (2 * r));
        simpl in Hm'; lia.
    + (* at most 3/10: the mantissa is at most that of 0.3 *)
      destruct (Z.ltb_spec 5404319552844595 m) as [Hm'|]; [exfalso|reflexivity].
      assert (E10 : 10 * (q * t + r) <= 54043195528445952 * t) by lia.
      assert (Hq' : q <= 5404319552844595) by nia.
      assert (Hq5 : q = 5404319552844595) by lia.
      subst q. unfold m in Hm'.
      destruct (Z.ltb_spec t (2 * r)); destruct (Z.eqb_spec t (2 * r));
        simpl in Hm'; lia.
  - (* the quotient is below 1/4 *)
    rewrite Z.min_l by lia.
    replace (- (n + 52) - - (n + 52)) with 0 by lia.
    rewrite Z.pow_0_r, Z.mul_1_r.
    replace (-54 - - (n + 52)) with (n - 2) by lia.
    assert (H2 : 2 <= 2 ^ (n - 2)).
    { change 2 with (2 ^ 1) at 1. apply Z.pow_le_mono_r; lia. }
    assert (H8 : 8 <= 2 ^ n).
    { change 8 with (2 ^ 3). apply Z.pow_le_mono_r; lia. }
    change (2 ^ 53) with 9007199254740992 in *.
    set (X := 2 ^ (n - 2)) in *. set (Y := 2 ^ n) in *.
    destruct (Z.ltb_spec (5404319552844595 * X) m);
      destruct (Z.ltb_spec (3 * t) (10 * h)); try reflexivity; nia.
Qed.

(** [h / t > 0.05] tells whether the exact ratio is above 5/100. *)
Lemma gt_0_05_exact (h t : Z) :
  0 <= h <= t -> 0 < t < 2 ^ 52 ->
  gtb (round_ratio h t) (literal 5 2) = (5 * t <? 100 * h).
Proof.
  intros Hh Ht. rewrite literal_5_2.
  destruct (Z.eq_dec h 0) as [->|Hne].
  { change (round_ratio 0 t) with (mk 0 0).
    destruct (Z.ltb_spec (5 * t) (100 * 0)); [lia|reflexivity]. }
  destruct (@round_ratio_spec h t) as (n & q & r & Hn & Hr & Eq & Hrem & ->);
    [lia|].
  set (m := if (t <? 2 * r) || ((t =? 2 * r) && Z.odd q) then q + 1 else q).
  assert (Hq : 2 ^ 52 <= q < 2 ^ 53).
  { rewrite Z.pow_add_r in Eq by lia. split; nia. }
  assert (Hm : q <= m <= q + 1) by (unfold m; destruct (_ || _); lia).
  unfold gtb. cbn [mant expo].
  destruct (Z.lt_trichotomy n 5) as [Hlt | [-> | Hgt]].
  - (* the quotient is 1/16 or more *)
    rewrite Z.min_r by lia.
    replace (-57 - -57) with 0 by lia. rewrite Z.pow_0_r, Z.mul_1_r.
    replace (- (n + 52) - -57) with (5 - n) by lia.
    assert (HX : 2 <= 2 ^ (5 - n)).
    { change 2 with (2 ^ 1) at 1. apply Z.pow_le_mono_r; lia. }
    assert (HY : 0 < 2 ^ n <= 16).
    { split; [apply Z.pow_pos_nonneg; lia|].
      change 16 with (2 ^ 4). apply Z.pow_le_mono_r; lia. }
    change (2 ^ 52) with 4503599627370496 in *.
    set (X := 2 ^ (5 - n)) in *. set (Y := 2 ^ n) in *.
    destruct (Z.ltb_spec 7205759403792794 (m * X));
      destruct (Z.ltb_spec (5 * t) (100 * h)); try reflexivity; nia.
  - (* the quotient is in the binade of 0.05 *)
    replace (- (5 + 52)) with (-57) by lia. rewrite Z.min_id.
    replace (-57 - -57) with 0 by lia. rewrite Z.pow_0_r, !Z.mul_1_r.
    change (2 ^ 5) with 32 in Hr. change (2 ^ (5 + 52)) with 144115188075855872 in Eq.
    change (2 ^ 52) with 4503599627370496 in *.
    change (2 ^ 53) with 9007199254740992 in *.
    destruct (Z.ltb_spec (5 * t) (100 * h)) as [Hgt | Hle].
    + (* above 1/20: the mantissa is above that of 0.05 *)
      destruct (Z.ltb_spec 7205759403792794 m) as [|Hm']; [reflexivity|exfalso].
      assert (Hq' : q <= 7205759403792794) by lia.
      assert (E20 : 20 * (q * t + r) >= 144115188075855872 * t + 144115188075855872)
        by lia.
      nia.
    + (* at most 1/20: the mantissa is at most that of 0.05 *)
      destruct (Z.ltb_spec 7205759403792794 m) as [Hm'|]; [exfalso|reflexivity].
      assert (E20 : 20 * (q * t + r) <= 144115188075855872 * t) by lia.
      assert (Hq' : q <= 7205759403792793) by nia.
      lia.
  - (* the quotient is below 1/32 *)
    rewrite Z.min_l by lia.
    replace (- (n + 52) - - (n + 52)) with 0 by lia.
    rewrite Z.pow_0_r, Z.mul_1_r.
    replace (-57 - - (n + 52)) with (n - 5) by lia.
    assert (H2 : 2 <= 2 ^ (n - 5)).
    { change 2 with (2 ^ 1) at 1. apply Z.pow_le_mono_r; lia. }
    assert (H8 : 64 <= 2 ^ n).
    { change 64 with (2 ^ 6). apply Z.pow_le_mono_r; lia. }
    change (2 ^ 53) with 9007199254740992 in *.
    set (X := 2 ^ (n - 5)) in *. set (Y := 2 ^ n) in *.
    destruct (Z.ltb_spec (7205759403792794 * X) m);
      destruct (Z.ltb_spec (5 * t) (100 * h)); try reflexivity; nia.
Qed.

End Binary64Facts.

(** ** The language classifier, as specified *)

Lemma count_le_length (A : Type) (p : A -> bool) (l : list A) :
  (length (filter p l) <= length l)%nat.
Proof. induction l as [|x l IH]; simpl; [lia|]. destruct (p x); simpl; lia. Qed.

(** C9: on a body that is not empty, the tag follows the exact ratio of
    the characters of the range U+0900..U+097F, counted by code point, to
    all the characters: above 3/10 the script-heavy tag, otherwise above
    5/100 the mixed tag, otherwise the third tag.  The float division and
    the two float comparisons of the code decide exactly that, for every
    body of less than [2^52] characters. *)
Theorem C9_ratio_thresholds (text : str) :
  text <> [] -> (Z.of_nat (length text) < 2 ^ 52)%Z ->
  detect_script text
  = Some (ratio_tag (Z.of_nat (length (filter is_hindi text)))
                    (Z.of_nat (length text))).
Proof.
  intros Hne Hlen. unfold detect_script, ratio_tag.
  pose proof (count_le_length is_hindi text) as Hc.
  set (h := Z.of_nat (length (filter is_hindi text))) in *.
  set (t := Z.of_nat (length text)) in *.
  assert (Ht : (0 < t)%Z) by (destruct text; [contradiction|subst t; simpl; lia]).
  assert (Hh : (0 <= h <= t)%Z) by (subst h t; lia).
  destruct (Z.eqb_spec t 0) as [|_]; [lia|].
  unfold Binary64.true_div. destruct (Z.eqb_spec t 0) as [|_]; [lia|].
  rewrite Binary64Facts.gt_0_3_exact, Binary64Facts.gt_0_05_exact by lia.
  destruct (3 * t <? 10 * h)%Z; [reflexivity|].
  destruct (5 * t <? 100 * h)%Z; reflexivity.
Qed.

Lemma C9_ratio_thresholds_witness :
  detect_script [0x0928; 0x092E; 0x0938; 0x094D; 0x0924; 0x0947; 32; 104;
                 101; 108; 108; 111; 32; 119; 111; 114; 108; 100; 33; 33]
  = Some "hinglish"%string.
Proof.
  apply (@C9_ratio_thresholds
           [0x0928; 0x092E; 0x0938; 0x094D; 0x0924; 0x0947; 32; 104;
            101; 108; 108; 111; 32; 119; 111; 114; 108; 100; 33; 33]);
    [discriminate | reflexivity].
Defined.

(** C10: [detect_script] returns a tag on every string; on the empty
    string it returns ['other'] before any division, so that no division
    by zero occurs; on any other string it returns one of the three tags
    of the ratio, each of which differs from ['other']. *)
Theorem C10_total_on_every_string :
  (forall text, exists tag, detect_script text = Some tag)
  /\ detect_script [] = Some "other"%string
  /\ (forall text, text <> [] ->
        (detect_script text = Some "hindi-heavy"%string
         \/ detect_script text = Some "hinglish"%string
         \/ detect_script text = Some "english"%string)
        /\ detect_script text <> Some "other"%string).
Proof.
  assert (H : forall text, text <> [] ->
            detect_script text = Some "hindi-heavy"%string
            \/ detect_script text = Some "hinglish"%string
            \/ detect_script text = Some "english"%string).
  { intros text Hne. unfold detect_script.
    destruct text as [|c text]; [contradiction|].
    destruct (Z.eqb_spec (Z.of_nat (length (c :: text))) 0) as [E|_];
      [simpl in E; lia|].
    unfold Binary64.true_div.
    destruct (Z.eqb_spec (Z.of_nat (length (c :: text))) 0) as [E|_];
      [simpl in E; lia|].
    destruct (Binary64.gtb _ (Binary64.literal 3 1)); [now left|].
    destruct (Binary64.gtb _ (Binary64.literal 5 2)); [right; now left|].
    right; now right. }
  split; [|split].
  - intros [|c text]; [now exists "other"%string|].
    destruct (H (c :: text)) as [E|[E|E]]; [discriminate| | |]; rewrite E; eauto.
  - reflexivity.
  - intros text Hne. split; [now apply H|].
    destruct (H text Hne) as [E|[E|E]]; rewrite E; discriminate.
Qed.

Lemma C10_total_on_every_string_witness :
  (detect_script (u "namaste") = Some "hindi-heavy"%string
   \/ detect_script (u "namaste") = Some "hinglish"%string
   \/ detect_script (u "namaste") = Some "english"%string)
  /\ detect_script (u "namaste") <> Some "other"%string.
Proof.
  apply (proj2 (proj2 C10_total_on_every_string) (u "namaste")). discriminate.
Defined.

(** ** The scenarios of the specification, evaluated *)

Example scenario_A_parsed :
  messages Strptime.strptime scenario_A
  = [ mkMessage (Some (mkDateTime 2021 11 8 19 59)) (u "08/11/21")
                (u "7:59 pm") (u "Ananya") (u "Hello there") ].
Proof. reflexivity. Qed.

Example scenario_C_parsed :
  messages Strptime.strptime scenario_C
  = [ mkMessage None (u "32/13/21") (u "7:59 pm") (u "Ananya") (u "Oops") ].
Proof. reflexivity. Qed.

(** Scenario A through the call: one row, of a Monday. *)
Example scenario_A_frame :
  parse_whatsapp_chat Strptime.strptime scenario_A
  = Returned
      (mkDataFrame
         (message_keys ++ added_columns)
         [ mkRow (mkMessage (Some (mkDateTime 2021 11 8 19 59))
                            (u "08/11/21") (u "7:59 pm") (u "Ananya")
                            (u "Hello there"))
                 (Some 2021) (Some 11) (Some (u "2021-11"))
                 (Some (u "Monday")) (Some 19) ]).
Proof. reflexivity. Qed.

(** Scenario C through the call: no timestamp parses, and line 77
    raises. *)
Example scenario_C_raises :
  parse_whatsapp_chat Strptime.strptime scenario_C = Raised AttributeError.
Proof. reflexivity. Qed.

(** A timestamp that does not parse beside one that does: the frame is
    returned, with the values of the first row missing. *)
Example scenario_C_then_A :
  option_map (fun df => map (fun r => (col_year r, col_day_of_week r))
                            (rows df))
             (match parse_whatsapp_chat Strptime.strptime
                      (scenario_C ++ [ch "010"] ++ scenario_A) with
              | Returned df => Some df
              | Raised _ => None
              end)
  = Some [ (None, None); (Some 2021, Some (u "Monday")) ].
Proof. reflexivity. Qed.

(** Scenario D: two headers in a row give two messages of one line. *)
Example scenario_D_parsed :
  map (fun m => (sender m, message m))
      (messages Strptime.strptime
         (u "08/11/21, 7:59 pm - Ananya: One" ++ [ch "010"]
            ++ u "08/11/21, 8:00 pm - Nandini: Two" ++ [ch "010"]))
  = [ (u "Ananya", u "One"); (u "Nandini", u "Two") ].
Proof. reflexivity. Qed.

(** Scenario E: the lines before the first header are dropped. *)
Example scenario_E_parsed :
  messages Strptime.strptime
    (u "Messages are end-to-end encrypted." ++ [ch "010"] ++ scenario_A)
  = messages Strptime.strptime scenario_A.
Proof. reflexivity. Qed.

Example no_header_parsed :
  messages Strptime.strptime (u "no header" ++ [ch "010"] ++ u "here")
  = [].
Proof. reflexivity. Qed.

Example no_header_frame :
  parse_whatsapp_chat Strptime.strptime
                      (u "no header" ++ [ch "010"] ++ u "here")
  = Returned (mkDataFrame [] []).
Proof. reflexivity. Qed.

(** The two literals of [detect_script], as doubles: 0x1.3333333333333p-2
    and 0x1.999999999999ap-5. *)
Example literals :
  Binary64.literal 3 1 = Binary64.mk 0x13333333333333 (-54)
  /\ Binary64.literal 5 2 = Binary64.mk 0x1999999999999a (-57).
Proof. split; reflexivity. Qed.

(** * More properties of the script *)

(** ** The matcher finds a match when there is one *)

Module ReComplete.

Import Re.

Lemma greedy_complete (A : Type) (p : char -> bool) (lo : nat)
      (hi : option nat) (w : str) :
  forallb p w = true ->
  forall (n pos : nat) (rest : str) (k : nat -> str -> option A) (x : A),
    (lo <= n + length w)%nat ->
    (forall h, hi = Some h -> (n + length w <= h)%nat) ->
    k (pos + length w)%nat rest = Some x ->
    exists y, greedy p lo hi n pos (w ++ rest) k = Some y.
Proof.
  induction w as [|c w IH]; intros Hw n pos rest k x Hlo Hhi Hk.
  - simpl in *. rewrite Nat.add_0_r in *.
    assert (L : (lo <=? n)%nat = true) by (apply Nat.leb_le; lia).
    destruct rest as [|c rest]; simpl; rewrite L; [eauto|].
    destruct (p c && under hi n); [|eauto].
    destruct (greedy p lo hi (S n) (S pos) rest k); eauto.
  - simpl in Hw. apply andb_prop in Hw as [Hc Hw]. simpl in Hlo, Hhi, Hk.
    assert (U : under hi n = true).
    { destruct hi as [h|]; [|reflexivity]. simpl. apply Nat.ltb_lt.
      specialize (Hhi h eq_refl). lia. }
    simpl. rewrite Hc, U. simpl.
    destruct (IH Hw (S n) (S pos) rest k x) as [y Hy].
    + lia.
    + intros h Eh. specialize (Hhi h Eh). lia.
    + replace (S pos + length w)%nat with (pos + S (length w))%nat by lia.
      exact Hk.
    + rewrite Hy. eauto.
Qed.

(** If the pattern has a match after which the rest of the matching
    succeeds, the matcher succeeds (possibly on a match it prefers). *)
Theorem run_complete (r : regex) (pos : nat) (w rest : str) (gs : list str) :
  matches r pos w rest gs ->
  forall (A : Type) (caps : list str)
         (k : nat -> str -> list str -> option A) (x : A),
    k (pos + length w)%nat rest (caps ++ gs) = Some x ->
    exists y, run r pos (w ++ rest) caps k = Some y.
Proof.
  induction 1 as [rest|pos rest E|p pos c rest Hc|p lo hi pos w rest Hw Hlo Hhi
                  |r1 r2 pos w1 w2 rest g1 g2 M1 IH1 M2 IH2
                  |r1 r2 pos w rest gs M IH|r1 r2 pos w rest gs M IH
                  |r pos w rest gs M IH];
    intros A caps k x Hk; simpl in *.
  - rewrite app_nil_r in Hk. eauto.
  - rewrite app_nil_r, Nat.add_0_r in Hk.
    destruct E as [-> | ->]; simpl; eauto.
  - rewrite Hc. rewrite app_nil_r in Hk.
    replace (pos + 1)%nat with (S pos) in Hk by lia. eauto.
  - rewrite app_nil_r in Hk.
    apply (@greedy_complete A p lo hi w Hw 0%nat pos rest
             (fun pos' s' => k pos' s' caps) x); auto.
  - rewrite length_app, Nat.add_assoc, app_assoc in Hk.
    destruct (IH2 A (caps ++ g1) k x Hk) as [y Hy].
    rewrite <- app_assoc.
    apply (IH1 A caps (fun pos' s' caps' => run r2 pos' s' caps' k) y Hy).
  - destruct (IH A caps k x Hk) as [y Hy]. rewrite Hy. eauto.
  - destruct (run r1 pos (w ++ rest) caps k) as [y|]; [eauto|].
    exact (IH A caps k x Hk).
  - apply (IH A caps
             (fun pos' s' caps' =>
                k pos' s' (insert_at (length caps)
                                     (firstn (pos' - pos) (w ++ rest)) caps'))
             x).
    replace (pos + length w - pos)%nat with (length w + 0)%nat by lia.
    rewrite firstn_app_2, firstn_O, app_nil_r, ReFacts.insert_at_end.
    exact Hk.
Qed.

(** Without anchors, a match is a match anywhere. *)
Lemma matches_anywhere (r : regex) (pos : nat) (w rest : str) (gs : list str) :
  matches r pos w rest gs -> anchorless r = true ->
  forall pos' rest', matches r pos' w rest' gs.
Proof.
  induction 1; simpl; intros G pos' rest'; try discriminate;
    try (apply andb_prop in G as [G1 G2]).
  - now constructor.
  - now constructor.
  - constructor; auto.
  - now apply m_alt_l; auto.
  - now apply m_alt_r; auto.
  - constructor; auto.
Qed.

(** [fullmatch] decides the language of a pattern without anchors. *)
Lemma fullmatch_complete (r : regex) (w : str) :
  anchorless r = true -> in_lang r w -> fullmatch r w = true.
Proof.
  intros G (pos & rest & gs & M).
  pose proof (matches_anywhere M G 0%nat []) as M0.
  destruct (@run_complete r 0 w [] gs M0 unit []
              (fun _ rest _ => match rest with [] => Some tt | _ => None end)
              tt eq_refl) as [y Hy].
  unfold fullmatch. rewrite app_nil_r in Hy. now rewrite Hy.
Qed.

Lemma fullmatch_matches (r : regex) (w : str) :
  anchorless r = true -> groupless r = true -> fullmatch r w = true ->
  forall pos rest, matches r pos w rest [].
Proof.
  intros G L H pos rest.
  destruct (ReFacts.fullmatch_sound _ _ H) as (p0 & r0 & gs & M).
  rewrite (ReFacts.groupless_matches M L) in M.
  exact (matches_anywhere M G pos rest).
Qed.

End ReComplete.

(** ** The classifier, exactly *)

Lemma match_pattern_header (s : str) (gs : list str) (e : nat) :
  Re.match_ pattern s = Some (gs, e) -> exists g, header_match s = Some g.
Proof.
  intros Hm. unfold header_match. rewrite Hm.
  apply ReFacts.match_sound in Hm as (w & rest & -> & M & _).
  unfold pattern in M. cbv zeta in M. unfold Re.lit in M.
  ReFacts.inv_matches.
  repeat match goal with
         | H : Re.matches _ _ _ _ ?g |- _ =>
             is_var g;
             let E := fresh in
             assert (E : g = [])
               by (apply (ReFacts.groupless_matches H); reflexivity);
             subst g
         end.
  simpl. eauto.
Qed.

Lemma pattern_matches_header (d t sn tx : str) (w1 w2 w3 w4 : char) :
  Re.fullmatch date_re d = true -> Re.fullmatch time_re t = true ->
  Re.fullmatch sender_re sn = true -> Re.fullmatch text_re tx = true ->
  Unicode.isspace w1 = true -> Unicode.isspace w2 = true ->
  Unicode.isspace w3 = true -> Unicode.isspace w4 = true ->
  exists gs,
    Re.matches pattern 0 (header_text d t sn tx w1 w2 w3 w4) [] gs.
Proof.
  intros Hd Ht Hsn Htx S1 S2 S3 S4.
  pose proof (ReComplete.fullmatch_matches date_re d eq_refl eq_refl Hd) as Md.
  pose proof (ReComplete.fullmatch_matches time_re t eq_refl eq_refl Ht) as Mt.
  pose proof (ReComplete.fullmatch_matches sender_re sn eq_refl eq_refl Hsn)
    as Msn.
  pose proof (ReComplete.fullmatch_matches text_re tx eq_refl eq_refl Htx)
    as Mtx.
  unfold header_text. rewrite <- (app_nil_r tx).
  change (d ++ [ch ","; w1] ++ t ++ [w2; ch "-"; w3] ++ sn ++ [ch ":"; w4]
            ++ tx ++ [])
    with ([] ++ d ++ [ch ","] ++ [w1] ++ t ++ [w2] ++ [ch "-"] ++ [w3]
             ++ sn ++ [ch ":"] ++ [w4] ++ tx ++ []).
  unfold pattern. cbv zeta. unfold Re.lit. eexists.
  eapply Re.m_cat; [apply Re.m_bol|].
  eapply Re.m_cat; [apply Re.m_grp; apply Md|].
  eapply Re.m_cat; [apply Re.m_cls; reflexivity|].
  eapply Re.m_cat; [apply Re.m_cls; exact S1|].
  eapply Re.m_cat; [apply Re.m_grp; apply Mt|].
  eapply Re.m_cat; [apply Re.m_cls; exact S2|].
  eapply Re.m_cat; [apply Re.m_cls; reflexivity|].
  eapply Re.m_cat; [apply Re.m_cls; exact S3|].
  eapply Re.m_cat; [apply Re.m_grp; apply Msn|].
  eapply Re.m_cat; [apply Re.m_cls; reflexivity|].
  eapply Re.m_cat; [apply Re.m_cls; exact S4|].
  eapply Re.m_cat; [apply Re.m_grp; apply Mtx|].
  apply Re.m_eol. now left.
Qed.

Lemma header_match_complete (d t sn tx : str) (w1 w2 w3 w4 : char) :
  Re.fullmatch date_re d = true -> Re.fullmatch time_re t = true ->
  Re.fullmatch sender_re sn = true -> Re.fullmatch text_re tx = true ->
  Unicode.isspace w1 = true -> Unicode.isspace w2 = true ->
  Unicode.isspace w3 = true -> Unicode.isspace w4 = true ->
  exists g, header_match (header_text d t sn tx w1 w2 w3 w4) = Some g.
Proof.
  intros Hd Ht Hsn Htx S1 S2 S3 S4.
  destruct (pattern_matches_header d t sn tx w1 w2 w3 w4) as [gs M]; auto.
  destruct (@ReComplete.run_complete _ _ _ _ _ M (list str * nat) []
              (fun pos' _ caps => Some (caps, pos')) _ eq_refl) as [[gs' e] Hy].
  rewrite app_nil_r in Hy. exact (match_pattern_header _ Hy).
Qed.

(** Cutting a string at the first occurrence of a character. *)
Lemma split_at_char (x : char) (a : str) :
  forall a' b b',
    ~ In x a -> ~ In x a' -> a ++ x :: b = a' ++ x :: b' -> a = a' /\ b = b'.
Proof.
  induction a as [|c a IH]; intros [|c' a'] b b' Ha Ha' E; simpl in *.
  - inversion E. auto.
  - inversion E; subst. elim Ha'. now left.
  - inversion E; subst. elim Ha. now left.
  - inversion E; subst. destruct (IH a' b b') as [-> ->]; auto.
Qed.

Lemma app_same_length (A : Type) (a a' b b' : list A) :
  length a = length a' -> a ++ b = a' ++ b' -> a = a' /\ b = b'.
Proof.
  revert a'. induction a as [|x a IH]; intros [|x' a'] L E; simpl in *;
    try discriminate; [auto|].
  inversion E; subst. destruct (IH a') as [-> ->]; auto.
Qed.

Lemma no_colon_notin (s : str) : no_colon s -> ~ In (ch ":") s.
Proof.
  unfold no_colon. rewrite Forall_forall. intros H Hin. exact (H _ Hin eq_refl).
Qed.

Lemma date_no_comma (d : str) : Re.in_lang date_re d -> ~ In (ch ",") d.
Proof.
  intros (pos & rest & gs & M). unfold date_re in M. cbv zeta in M.
  unfold Re.lit in M. ReFacts.inv_matches.
  repeat match goal with
         | H : (_ =? _) = true |- _ => apply N.eqb_eq in H; subst
         end.
  assert (D : forall w, forallb Re.digit w = true -> ~ In (ch ",") w).
  { intros w Hw Hin. rewrite forallb_forall in Hw. specialize (Hw _ Hin).
    vm_compute in Hw. discriminate. }
  intros Hin.
  repeat (apply in_app_or in Hin as [Hin|Hin];
          [try (now apply D in Hin); try (now destruct Hin as [E|[]]; discriminate)|]).
  now apply D in Hin.
Qed.

Lemma time_token_length (t : str) :
  Re.in_lang time_re t ->
  exists b1 b2,
    t = b1 ++ ch ":" :: b2 /\ no_colon b1 /\ length b2 = 5%nat.
Proof.
  intros (pos & rest & gs & M). unfold time_re in M. cbv zeta in M.
  unfold Re.lit in M. ReFacts.inv_matches.
  repeat match goal with
         | H : (_ =? _) = true |- _ => apply N.eqb_eq in H; subst
         end.
  do 2 eexists. split; [reflexivity|]. split.
  - eapply no_colon_class; [|eassumption]; auto with tokens.
  - rewrite !length_app. simpl.
    match goal with
    | H : forall h, Some 2%nat = Some h -> _ |- _ => specialize (H _ eq_refl)
    end.
    lia.
Qed.

(** The grammar is not ambiguous: the groups are the tokens the line was
    written from. *)
Lemma header_match_exact (d t sn tx : str) (w1 w2 w3 w4 : char) :
  Re.fullmatch date_re d = true -> Re.fullmatch time_re t = true ->
  Re.fullmatch sender_re sn = true -> Re.fullmatch text_re tx = true ->
  Unicode.isspace w1 = true -> Unicode.isspace w2 = true ->
  Unicode.isspace w3 = true -> Unicode.isspace w4 = true ->
  header_match (header_text d t sn tx w1 w2 w3 w4) = Some (d, t, sn, tx).
Proof.
  intros Hd Ht Hsn Htx S1 S2 S3 S4.
  destruct (header_match_complete d t sn tx w1 w2 w3 w4)
    as [[[[d' t'] sn'] tx'] H]; auto.
  rewrite H. f_equal.
  apply header_match_shape in H
    as (v1 & v2 & v3 & v4 & tail & E & Hd' & Ht' & Hsn' & Htx' & _ & _ & _ & _
        & Htail).
  apply ReFacts.fullmatch_sound in Hd, Ht, Hsn, Htx.
  unfold header_text in E.
  (* the date: up to the first comma *)
  apply split_at_char in E as [<- E];
    [|now apply date_no_comma|now apply date_no_comma].
  inversion E as [[Ew E1]]; clear E.
  (* the time: up to its colon, and five characters more *)
  destruct (time_token_length Ht) as (b1 & b2 & -> & Hb1 & L2).
  destruct (time_token_length Ht') as (b1' & b2' & -> & Hb1' & L2').
  rewrite <- !app_assoc in E1. simpl in E1.
  apply split_at_char in E1 as [<- E1]; [| now apply no_colon_notin ..].
  apply app_same_length in E1 as [<- E1]; [|congruence].
  inversion E1 as [[Ew2 Ew3 E2]]; clear E1.
  (* the sender: up to the next colon *)
  apply sender_token in Hsn as [_ Hsn]. apply sender_token in Hsn' as [_ Hsn'].
  apply split_at_char in E2 as [<- E2]; [| now apply no_colon_notin ..].
  inversion E2 as [[Ew4 E3]]; clear E2.
  (* the text: the rest, which has no newline *)
  apply text_token in Htx as [_ Htx]. apply text_token in Htx' as [_ Htx'].
  destruct Htail as [-> | ->].
  - rewrite ?app_nil_r in *. subst. reflexivity.
  - exfalso. rewrite Forall_forall in Htx.
    apply (Htx 10); [|reflexivity]. try rewrite E3.
    apply in_or_app. right. now left.
Qed.

(** X1: a line is a header exactly when, trimmed, it is a date, a comma,
    a time, a hyphen, a sender, a colon and a text of the grammar, with
    one whitespace character after the comma, on each side of the hyphen
    and after the colon. *)
Theorem X1_is_header_iff (line : str) :
  is_header line = true <->
  exists d t sn tx w1 w2 w3 w4,
    strip line = header_text d t sn tx w1 w2 w3 w4
    /\ Re.fullmatch date_re d = true /\ Re.fullmatch time_re t = true
    /\ Re.fullmatch sender_re sn = true /\ Re.fullmatch text_re tx = true
    /\ Unicode.isspace w1 = true /\ Unicode.isspace w2 = true
    /\ Unicode.isspace w3 = true /\ Unicode.isspace w4 = true.
Proof.
  unfold is_header. split.
  - destruct (header_match (strip line)) as [[[[d t] sn] tx]|] eqn:H;
      [intros _|discriminate].
    apply header_match_shape in H
      as (w1 & w2 & w3 & w4 & tail & E & Hd & Ht & Hsn & Htx & S1 & S2 & S3
          & S4 & Htail).
    exists d, t, sn, tx, w1, w2, w3, w4.
    assert (tail = []) as ->.
    { destruct Htail as [-> | ->]; [reflexivity|exfalso].
      destruct (strip_ends line) as [E0 | (a & c & E1 & Hc)].
      - rewrite E0 in E. destruct d; discriminate.
      - rewrite E1 in E. repeat rewrite app_assoc in E.
        apply app_inj_tail in E as [_ ->]. discriminate. }
    rewrite app_nil_r in E.
    repeat split; auto; now apply ReComplete.fullmatch_complete.
  - intros (d & t & sn & tx & w1 & w2 & w3 & w4 & E & Hd & Ht & Hsn & Htx
            & S1 & S2 & S3 & S4).
    rewrite E.
    destruct (header_match_complete d t sn tx w1 w2 w3 w4) as [g ->]; auto.
Qed.

(** ** More on [strip] *)

Lemma lstrip_first (s : str) (c : char) (r : str) :
  lstrip s = c :: r -> Unicode.isspace c = false.
Proof.
  induction s as [|x s IH]; simpl; [discriminate|].
  destruct (Unicode.isspace x) eqn:Hx; [exact IH|].
  intros E. now inversion E; subst.
Qed.

Lemma rstrip_keeps_head (c : char) (r : str) :
  Unicode.isspace c = false -> exists r', rstrip (c :: r) = c :: r'.
Proof.
  intros Hc. unfold rstrip. simpl rev.
  rewrite (@lstrip_app_stop (rev r) c [] Hc), rev_app_distr. simpl. eauto.
Qed.

Lemma strip_first (s : str) (c : char) (r : str) :
  strip s = c :: r -> Unicode.isspace c = false.
Proof.
  unfold strip. destruct (lstrip s) as [|c0 r0] eqn:E; [discriminate|].
  pose proof (@lstrip_first _ _ _ E) as H0.
  destruct (@rstrip_keeps_head c0 r0 H0) as [r' ->].
  intros E'. inversion E'; subst. exact H0.
Qed.

(** A string that starts and ends with characters that are not
    whitespace is its own [strip]. *)
Lemma strip_tight (c : char) (mid : str) (c' : char) :
  Unicode.isspace c = false -> Unicode.isspace c' = false ->
  strip (c :: mid ++ [c']) = c :: mid ++ [c'].
Proof.
  intros Hc Hc'. unfold strip. rewrite lstrip_head by exact Hc.
  change (c :: mid ++ [c']) with ((c :: mid) ++ [c']).
  now apply rstrip_last.
Qed.

Lemma strip_idem (s : str) : strip (strip s) = strip s.
Proof.
  destruct (strip s) as [|c r] eqn:E; [reflexivity|].
  pose proof (@strip_first _ _ _ E) as Hc.
  destruct (strip_ends s) as [E0 | (a & c' & E1 & Hc')]; [congruence|].
  rewrite E in E1. destruct a as [|x a]; simpl in E1; inversion E1; subst.
  - unfold strip. rewrite lstrip_head by exact Hc'.
    now apply (@rstrip_last []).
  - now apply strip_tight.
Qed.

(** Two strings that are their own [strip] and are not empty, with
    anything between them. *)
Lemma strip_join (x mid y : str) :
  x <> [] -> strip x = x -> y <> [] -> strip y = y ->
  strip (x ++ mid ++ y) = x ++ mid ++ y.
Proof.
  intros Hx Ex Hy Ey.
  destruct x as [|c x]; [contradiction|].
  pose proof (@strip_first _ _ _ Ex) as Hc.
  destruct (strip_ends y) as [E0 | (a & c' & E1 & Hc')]; [congruence|].
  rewrite Ey in E1. subst y.
  replace ((c :: x) ++ mid ++ a ++ [c']) with (c :: (x ++ mid ++ a) ++ [c'])
    by (simpl; now rewrite <- !app_assoc).
  now apply strip_tight.
Qed.

Lemma rstrip_strip (s : str) : rstrip (strip s) = strip s.
Proof.
  destruct (strip_ends s) as [-> | (a & c & -> & Hc)]; [reflexivity|].
  now apply rstrip_last.
Qed.

(** A line written from tokens of the grammar is its own [strip] when
    its text has no whitespace at its end. *)
Lemma header_text_tight (d t sn tx : str) (w1 w2 w3 w4 : char) :
  Re.fullmatch date_re d = true -> Re.fullmatch text_re tx = true ->
  rstrip tx = tx ->
  strip (header_text d t sn tx w1 w2 w3 w4) = header_text d t sn tx w1 w2 w3 w4.
Proof.
  intros Hd Htx Et.
  apply ReFacts.fullmatch_sound in Hd, Htx.
  apply date_token in Hd as [_ (c & d' & -> & Hc)].
  apply text_token in Htx as [Hne _].
  destruct (rstrip_ends tx) as [E0 | (a & c' & E1 & Hc')]; [congruence|].
  rewrite Et in E1. subst tx. unfold header_text.
  replace ((c :: d') ++ [ch ","; w1] ++ t ++ [w2; ch "-"; w3] ++ sn
             ++ [ch ":"; w4] ++ a ++ [c'])
    with (c :: (d' ++ [ch ","; w1] ++ t ++ [w2; ch "-"; w3] ++ sn
                  ++ [ch ":"; w4] ++ a) ++ [c'])
    by (simpl; repeat (rewrite <- app_assoc; simpl); reflexivity).
  apply strip_tight; [now apply decimal_not_space | exact Hc'].
Qed.

(** X2: a line written from a date, a time, a sender and a text of the
    grammar, with one whitespace character at each of the four places the
    pattern has [\s], is matched, and the groups are the four tokens; when
    the text has no whitespace at its end ([tx.rstrip() == tx]), the line
    is classified as a header with these groups. *)
Theorem X2_header_match_roundtrip (d t sn tx : str) (w1 w2 w3 w4 : char) :
  Re.fullmatch date_re d = true -> Re.fullmatch time_re t = true ->
  Re.fullmatch sender_re sn = true -> Re.fullmatch text_re tx = true ->
  Unicode.isspace w1 = true -> Unicode.isspace w2 = true ->
  Unicode.isspace w3 = true -> Unicode.isspace w4 = true ->
  header_match (header_text d t sn tx w1 w2 w3 w4) = Some (d, t, sn, tx)
  /\ (rstrip tx = tx ->
      is_header (header_text d t sn tx w1 w2 w3 w4) = true
      /\ header_groups (header_text d t sn tx w1 w2 w3 w4) = (d, t, sn, tx)).
Proof.
  intros Hd Ht Hsn Htx S1 S2 S3 S4.
  pose proof (@header_match_exact d t sn tx w1 w2 w3 w4 Hd Ht Hsn Htx
                                  S1 S2 S3 S4) as E.
  split; [exact E|]. intros Et.
  unfold is_header, header_groups.
  rewrite (@header_text_tight d t sn tx w1 w2 w3 w4 Hd Htx Et), E. auto.
Qed.

Lemma X2_header_match_roundtrip_witness :
  let line := header_text (u "8/11/21") (u "7:59 pm") (u "Ananya R")
                          (u "  Hello: there") (ch " ") 0x202F (ch " ")
                          (ch " ") in
  let g := (u "8/11/21", u "7:59 pm", u "Ananya R", u "  Hello: there") in
  header_match line = Some g
  /\ (rstrip (u "  Hello: there") = u "  Hello: there" ->
      is_header line = true /\ header_groups line = g).
Proof.
  apply (@X2_header_match_roundtrip (u "8/11/21") (u "7:59 pm")
           (u "Ananya R") (u "  Hello: there") (ch " ") 0x202F (ch " ")
           (ch " "));
    reflexivity.
Defined.

(** ** The loop, line by line *)

Lemma header_match_nil : header_match [] = None.
Proof. reflexivity. Qed.

Lemma is_header_blank (line : str) : strip line = [] -> is_header line = false.
Proof. unfold is_header. now intros ->. Qed.

(** The first line of a body is not blank. *)
Lemma header_text_nonblank (line d t sn tx : str) :
  header_match (strip line) = Some (d, t, sn, tx) -> strip tx <> [].
Proof.
  intros H. apply header_match_shape in H
    as (w1 & w2 & w3 & w4 & tail & E & _ & _ & _ & Htx & _ & _ & _ & _ & Ht).
  apply text_token in Htx as [Htx _].
  destruct (strip_ends line) as [E0 | (a & c & E1 & Hc)].
  { rewrite E0 in E. destruct d; discriminate. }
  rewrite E1 in E.
  assert (Hlast : exists tx', tx = tx' ++ [c]).
  { destruct Ht as [-> | ->].
    - rewrite app_nil_r in E.
      destruct (@exists_last _ tx Htx) as (tx' & y & ->).
      exists tx'. f_equal. f_equal.
      repeat rewrite app_assoc in E.
      apply app_inj_tail in E as [_ ->]. reflexivity.
    - exfalso. repeat rewrite app_assoc in E.
      apply app_inj_tail in E as [_ ->]. discriminate. }
  destruct Hlast as (tx' & ->).
  unfold strip. destruct (lstrip_suffix (tx' ++ [c])) as (ws & Ews & Hws).
  destruct (lstrip (tx' ++ [c])) as [|y r] eqn:El.
  - rewrite app_nil_r in Ews. rewrite <- Ews in Hws.
    rewrite forallb_app in Hws. simpl in Hws. rewrite Hc in Hws.
    rewrite andb_false_r in Hws. discriminate.
  - destruct (@exists_last _ (y :: r)) as (r' & z & Er); [easy|].
    rewrite Er in *. assert (z = c).
    { rewrite app_assoc in Ews. now apply app_inj_tail in Ews as [_ ->]. }
    subst z. rewrite rstrip_last by exact Hc. now destruct r'.
Qed.

Lemma blocks_headers (lines : list str) :
  map fst (snd (blocks lines)) = filter is_header lines.
Proof.
  induction lines as [|l lines IH]; simpl; [reflexivity|].
  destruct (blocks lines) as [pre bs]. simpl in IH.
  destruct (is_header l); simpl; now rewrite IH.
Qed.

Lemma blocks_In_ok (lines : list str) (b : block) :
  In b (snd (blocks lines)) -> block_ok b.
Proof.
  intros H. pose proof (blocks_ok lines) as F.
  rewrite Forall_forall in F. now apply F.
Qed.

Section ParserFacts.

Variable strptime : str -> option DateTime.

Lemma block_message_fields (b : block) :
  let m := block_message strptime b in
  (date m, time m, sender m) = header_fields (fst b)
  /\ datetime m = strptime (date m ++ u ", " ++ time m).
Proof.
  unfold block_message, header_fields.
  destruct (continue_fields (snd b)
              (new_message strptime (header_groups (fst b))))
    as (H1 & H2 & H3 & H4).
  cbv zeta. rewrite H1, H2, H3, H4.
  now destruct (header_groups (fst b)) as [[[d t] sn] tx].
Qed.

Lemma loop_body_blank (st : state) (line : str) :
  strip line = [] -> loop_body strptime st line = st.
Proof.
  intros E. unfold loop_body. rewrite E, header_match_nil. simpl.
  now destruct (fst st).
Qed.

Lemma loop_body_strip (st : state) (line : str) :
  loop_body strptime st (strip line) = loop_body strptime st line.
Proof. unfold loop_body, append_line. now rewrite !strip_idem. Qed.

(** X3: the messages come in the order of the header lines, and the date,
    the time and the sender of each are those of its header line: the two
    first groups as matched, the third trimmed. *)
Theorem X3_messages_follow_headers (lines : list str) :
  map (fun m => (date m, time m, sender m)) (parse_lines strptime lines)
  = map header_fields (filter is_header lines).
Proof.
  rewrite parse_lines_blocks, <- blocks_headers, !map_map.
  apply map_ext. intros b. now destruct (block_message_fields b).
Qed.

(** X4: a transcript cut just before a header line can be parsed in two
    parts: the messages of the whole are those of the first part followed
    by those of the second. *)
Theorem X4_cut_at_header (a b : list str) :
  at_boundary b ->
  parse_lines strptime (a ++ b)
  = parse_lines strptime a ++ parse_lines strptime b.
Proof.
  intros Hb. rewrite !parse_lines_blocks, <- map_app. f_equal.
  destruct b as [|h rest].
  - now rewrite !app_nil_r.
  - simpl in Hb. now rewrite blocks_app_header.
Qed.

(** X5: lines before the first header change nothing: if none of them is a
    header, the output is that of the lines after them. *)
Theorem X5_leading_lines_dropped (noise lines : list str) :
  forallb not_header noise = true ->
  parse_lines strptime (noise ++ lines) = parse_lines strptime lines.
Proof.
  intros H. now rewrite !parse_lines_blocks, blocks_app_noise.
Qed.

(** X6: blank lines change nothing: the transcript without the lines that
    are empty once trimmed gives the same messages. *)
Theorem X6_blank_lines_ignored (lines : list str) :
  parse_lines strptime (filter (fun l => truthy (strip l)) lines)
  = parse_lines strptime lines.
Proof.
  unfold parse_lines. generalize (None : option Message, [] : list Message).
  induction lines as [|l lines IH]; intros st; simpl; [reflexivity|].
  destruct (strip l) eqn:E; simpl.
  - rewrite (loop_body_blank st l E). apply IH.
  - apply IH.
Qed.

(** X7: the whitespace around a line changes nothing: the transcript with
    every line trimmed gives the same messages. *)
Theorem X7_trimmed_lines_same (lines : list str) :
  parse_lines strptime (map strip lines) = parse_lines strptime lines.
Proof.
  unfold parse_lines. generalize (None : option Message, [] : list Message).
  induction lines as [|l lines IH]; intros st; simpl; [reflexivity|].
  rewrite loop_body_strip. apply IH.
Qed.

Lemma continue_tight (cs : list str) :
  forall m, message m <> [] -> strip (message m) = message m ->
    message (fold_left continue_with cs m) <> []
    /\ strip (message (fold_left continue_with cs m))
       = message (fold_left continue_with cs m).
Proof.
  induction cs as [|c cs IH]; intros m Hne Ht; simpl; [now split|].
  apply IH; unfold continue_with, append_line;
    destruct (strip c) as [|x r] eqn:E; simpl; auto.
  - intros E'. apply app_eq_nil in E' as [E' _]. contradiction.
  - change (message m ++ 10 :: x :: r) with (message m ++ [10] ++ x :: r).
    apply strip_join; auto; [discriminate|].
    rewrite <- E. apply strip_idem.
Qed.

(** X8: every message of the output has a body that is not empty, and a
    body and a sender that have no whitespace at either end. *)
Theorem X8_fields_trimmed (lines : list str) :
  Forall (fun m => message m <> []
                   /\ strip (message m) = message m
                   /\ strip (sender m) = sender m)
         (parse_lines strptime lines).
Proof.
  rewrite parse_lines_blocks. apply Forall_forall. intros m Hm.
  apply in_map_iff in Hm as (b & <- & Hb).
  apply blocks_In_ok in Hb as [Hh _].
  unfold block_message.
  destruct (continue_fields (snd b)
              (new_message strptime (header_groups (fst b))))
    as (_ & _ & _ & ->).
  unfold is_header, header_groups in *.
  destruct (header_match (strip (fst b))) as [[[[d t] sn] tx]|] eqn:H;
    [|discriminate].
  pose proof (header_text_nonblank _ H) as Htx.
  destruct (continue_tight (snd b) (new_message strptime (d, t, sn, tx)))
    as [H1 H2]; [exact Htx | apply strip_idem |].
  split; [exact H1|]. split; [exact H2|]. apply strip_idem.
Qed.

(** X9: in every message of the output, the date and the time are tokens
    of the grammar, the sender has no colon, and the timestamp is what
    [strptime] gives on the date, a comma, a space and the time. *)
Theorem X9_fields_well_formed (lines : list str) :
  Forall (fun m => Re.fullmatch date_re (date m) = true
                   /\ Re.fullmatch time_re (time m) = true
                   /\ no_colon (sender m)
                   /\ datetime m = strptime (date m ++ u ", " ++ time m))
         (parse_lines strptime lines).
Proof.
  rewrite parse_lines_blocks. apply Forall_forall. intros m Hm.
  apply in_map_iff in Hm as (b & <- & Hb).
  apply blocks_In_ok in Hb as [Hh _].
  destruct (block_message_fields b) as [F D]. cbv zeta in F, D.
  unfold header_fields, is_header, header_groups in *.
  destruct (header_match (strip (fst b))) as [[[[d t] sn] tx]|] eqn:H;
    [|discriminate].
  inversion F as [[F1 F2 F3]].
  apply header_match_shape in H
    as (w1 & w2 & w3 & w4 & tail & _ & Hd & Ht & Hsn & _).
  split; [|split; [|split]].
  - rewrite F1. now apply ReComplete.fullmatch_complete.
  - rewrite F2. now apply ReComplete.fullmatch_complete.
  - rewrite F3. apply no_colon_strip. now apply sender_token in Hsn.
  - exact D.
Qed.

End ParserFacts.

Lemma X4_cut_at_header_witness :
  parse_lines Strptime.strptime ([scenario_A; u "and more"] ++ [scenario_C])
  = parse_lines Strptime.strptime [scenario_A; u "and more"]
      ++ parse_lines Strptime.strptime [scenario_C].
Proof.
  apply (@X4_cut_at_header Strptime.strptime [scenario_A; u "and more"]
           [scenario_C]).
  reflexivity.
Defined.

Lemma X5_leading_lines_dropped_witness :
  parse_lines Strptime.strptime
              ([u "Messages are end-to-end encrypted"; []] ++ [scenario_A])
  = parse_lines Strptime.strptime [scenario_A].
Proof.
  apply (@X5_leading_lines_dropped Strptime.strptime
           [u "Messages are end-to-end encrypted"; []] [scenario_A]).
  reflexivity.
Defined.

(** X10: the body of a message, cut at its newlines, is the first text
    of its header line, trimmed, followed by the lines of its block that
    are not blank, trimmed, in the order of the transcript. *)
Theorem X10_body_lines (strptime : str -> option DateTime) (text : str)
        (j : nat) (b : block) (m : Message) :
  nth_error (snd (blocks (readlines text))) j = Some b ->
  nth_error (messages strptime text) j = Some m ->
  split_newline (message m)
  = first_line (fst b) :: filter truthy (map strip (snd b)).
Proof.
  unfold messages. rewrite parse_lines_blocks.
  intros Hb Hm. rewrite nth_error_map, Hb in Hm. simpl in Hm.
  inversion Hm; subst m; clear Hm.
  apply nth_error_In in Hb.
  unfold block_message. rewrite continue_body.
  replace (message (new_message strptime (header_groups (fst b))))
    with (first_line (fst b))
    by (unfold first_line, new_message;
        now destruct (header_groups (fst b)) as [[[d t] sn] tx]).
  apply split_continuation.
  - apply Forall_forall. intros l Hl.
    apply readlines_no_newline with (text := text).
    apply (blocks_lines_In _ Hb). now right.
  - pose proof (blocks_In_ok _ _ Hb) as [Hh _].
    unfold first_line, is_header, header_groups in *.
    destruct (header_match (strip (fst b))) as [[[[d t] sn] tx]|] eqn:H;
      [|discriminate].
    apply header_match_shape in H
      as (w1 & w2 & w3 & w4 & tail & _ & _ & _ & _ & Htx & _).
    apply text_token in Htx as [_ Htx]. rewrite Forall_forall in Htx.
    intros Hin. apply strip_In in Hin. exact (Htx _ Hin eq_refl).
Qed.

Lemma X10_body_lines_witness :
  split_newline (u "Line one" ++ [ch "010"] ++ u "Line two")
  = first_line (u "08/11/21, 7:59 pm - Ananya: Line one" ++ [ch "010"])
      :: filter truthy (map strip [u "Line two"]).
Proof.
  apply (@X10_body_lines Strptime.strptime scenario_B 0
           (u "08/11/21, 7:59 pm - Ananya: Line one" ++ [ch "010"],
            [u "Line two"])
           (mkMessage (Some (mkDateTime 2021 11 8 19 59)) (u "08/11/21")
                      (u "7:59 pm") (u "Ananya")
                      (u "Line one" ++ [ch "010"] ++ u "Line two")));
    reflexivity.
Defined.

(** X11: the lines the loop reads, put end to end, are the text of the
    file with its line ends read as newlines: no character is lost, and
    no line is empty. *)
Lemma split_keepends_concat (s : str) :
  forall cur, concat (split_keepends cur s) = rev cur ++ s.
Proof.
  induction s as [|c s IH]; intros cur; simpl.
  - destruct cur as [|x cur]; simpl; [reflexivity|]. now rewrite !app_nil_r.
  - destruct (c =? 10); simpl.
    + rewrite IH. simpl. now rewrite <- app_assoc.
    + rewrite IH. simpl. now rewrite <- app_assoc.
Qed.

Lemma split_keepends_nonempty (s : str) :
  forall cur, Forall (fun l => l <> []) (split_keepends cur s).
Proof.
  induction s as [|c s IH]; intros cur; simpl.
  - destruct cur as [|x cur]; constructor; [|constructor].
    simpl. intros E. apply app_eq_nil in E as [_ E]. discriminate.
  - destruct (c =? 10); [|apply IH].
    constructor; [|apply IH].
    simpl. intros E. apply app_eq_nil in E as [_ E]. discriminate.
Qed.

(** X11: the lines the loop reads, put end to end, are the text of the
    file with its line ends read as newlines; a text without carriage
    returns is read as it is; and no line is empty. *)
Theorem X11_readlines_concat (text : str) :
  concat (readlines text) = universal_newlines text
  /\ (~ In 13 text -> concat (readlines text) = text)
  /\ Forall (fun l => l <> []) (readlines text).
Proof.
  unfold readlines. split; [apply split_keepends_concat|]. split.
  - intros H. rewrite split_keepends_concat. simpl.
    induction text as [|c text IH]; [reflexivity|].
    assert (Hc : c <> 13) by (intros ->; apply H; now left).
    assert (Ht : ~ In 13 text) by (intros Hin; apply H; now right).
    assert (E : universal_newlines (c :: text) = c :: universal_newlines text).
    { destruct c as [|p]; [reflexivity|].
      do 4 (destruct p as [p|p|]; try reflexivity). now elim Hc. }
    rewrite E. f_equal. now apply IH.
  - apply split_keepends_nonempty.
Qed.

Lemma X11_readlines_concat_witness :
  concat (readlines scenario_B) = scenario_B.
Proof.
  apply (proj1 (proj2 (X11_readlines_concat scenario_B))).
  vm_compute. intuition discriminate.
Defined.

(** ** The timestamps *)

Lemma range_enum (a b x : N) :
  Re.range a b x = true ->
  In x (map N.of_nat (seq (N.to_nat a) (N.to_nat b - N.to_nat a + 1))).
Proof.
  unfold Re.range. intros H. apply andb_prop in H as [H1 H2].
  apply N.leb_le in H1, H2.
  rewrite <- (N2Nat.id x). apply in_map, in_seq. lia.
Qed.

Lemma digit_value_decimal (c : char) :
  Unicode.isdecimal c = true ->
  exists v, Unicode.digit_value c = Some v /\ v <= 9.
Proof.
  unfold Unicode.isdecimal, Unicode.digit_value. intros H.
  destruct (find (Unicode.in_block c) Unicode.decimal_zeros) as [z|] eqn:F.
  - apply find_some in F as [_ Hb]. exists (c - z). split; [reflexivity|].
    unfold Unicode.in_block in Hb. apply andb_prop in Hb as [H1 H2].
    apply N.leb_le in H1, H2. lia.
  - apply existsb_exists in H as (z & Hz & Hb).
    now rewrite (find_none _ _ F z Hz) in Hb.
Qed.

Ltac inv_alt :=
  repeat match goal with
    | H : Re.matches (Re.Alt _ _) _ _ _ _ |- _ => inversion H; subst; clear H
    | H : Re.matches (Re.Cat _ _) _ _ _ _ |- _ => inversion H; subst; clear H
    | H : Re.matches (Re.Cls _) _ _ _ _ |- _ => inversion H; subst; clear H
    end.

Ltac enum_ranges :=
  repeat match goal with
    | H : Re.range _ _ _ = true |- _ =>
        apply range_enum in H; simpl in H;
        repeat (destruct H as [<- | H]); try contradiction
    | H : (_ =? _) = true |- _ => apply N.eqb_eq in H; subst
    end.

(** The month and the hour: 1[0-2]|0[1-9]|[1-9] *)
Lemma one_to_twelve (pos : nat) (w rest : str) (gs : list str) :
  Re.matches
    (Re.Alt (Re.Cat (Re.lit (ch "1")) (Re.Cls (Re.range (ch "0") (ch "2"))))
       (Re.Alt (Re.Cat (Re.lit (ch "0")) (Re.Cls (Re.range (ch "1") (ch "9"))))
               (Re.Cls (Re.range (ch "1") (ch "9")))))
    pos w rest gs ->
  exists v, Unicode.int w = Some v /\ 1 <= v <= 12.
Proof.
  unfold Re.lit. intros M. inv_alt; enum_ranges;
    (eexists; split; [vm_compute; reflexivity | lia]).
Qed.

Lemma int_one (y : char) (v : N) :
  Unicode.digit_value y = Some v -> Unicode.int [y] = Some v.
Proof. unfold Unicode.int. simpl. now intros ->. Qed.

Lemma int_two (x y : char) (dx dy : N) :
  Unicode.digit_value x = Some dx -> Unicode.digit_value y = Some dy ->
  Unicode.int [x; y] = Some (10 * dx + dy).
Proof.
  unfold Unicode.int. cbn [Unicode.int_of_digits]. intros -> ->.
  reflexivity.
Qed.

(** The minute: [0-5]\d|\d *)
Lemma up_to_fifty_nine (pos : nat) (w rest : str) (gs : list str) :
  Re.matches
    (Re.Alt (Re.Cat (Re.Cls (Re.range (ch "0") (ch "5"))) (Re.Cls Re.digit))
            (Re.Cls Re.digit))
    pos w rest gs ->
  exists v, Unicode.int w = Some v /\ v <= 59.
Proof.
  intros M. inv_alt;
    repeat match goal with
      | H : Re.digit _ = true |- _ =>
          apply digit_value_decimal in H as (? & ? & ?)
      end; enum_ranges.
  all: try (eexists; split;
            [apply int_two; [vm_compute; reflexivity | eassumption] | lia]).
  eexists; split; [apply int_one; eassumption | lia].
Qed.

(** The year: \d\d *)
Lemma two_digits (pos : nat) (w rest : str) (gs : list str) :
  Re.matches (Re.Cat (Re.Cls Re.digit) (Re.Cls Re.digit)) pos w rest gs ->
  exists v, Unicode.int w = Some v /\ v <= 99.
Proof.
  intros M. inv_alt.
  repeat match goal with
    | H : Re.digit _ = true |- _ =>
        apply digit_value_decimal in H as (? & ? & ?)
    end.
  eexists; split; [apply int_two; eassumption | lia].
Qed.

Lemma days_in_month_le (y m : N) : Strptime.days_in_month y m <= 31.
Proof.
  unfold Strptime.days_in_month.
  destruct (m =? 2); [destruct (Strptime.is_leap y); lia|].
  destruct (_ || _); lia.
Qed.

(** What [strptime] returns is a date of the calendar, in the hundred
    years the two-digit year stands for, and a time of the clock. *)
Lemma strptime_valid (s : str) (dt : DateTime) :
  Strptime.strptime s = Some dt -> valid_datetime dt.
Proof.
  unfold Strptime.strptime. intros H.
  destruct (Re.match_ Strptime.format_regex s) as [[gs e]|] eqn:M;
    [|discriminate].
  destruct gs as [|gd [|gm [|gy [|gI [|gM [|gp [|]]]]]]]; try discriminate.
  apply ReFacts.match_sound in M as (w & rest & -> & M & _).
  unfold Strptime.format_regex in M. cbv beta zeta in M.
  inversion M as [| | | | ? ? ? ? ? ? ? ? Md M1 | | |]; subst; clear M.
  inversion M1 as [| | | | ? ? ? ? ? ? ? ? Ms1 M2 | | |]; subst; clear M1.
  inversion M2 as [| | | | ? ? ? ? ? ? ? ? Mm M3 | | |]; subst; clear M2.
  inversion M3 as [| | | | ? ? ? ? ? ? ? ? Ms2 M4 | | |]; subst; clear M3.
  inversion M4 as [| | | | ? ? ? ? ? ? ? ? My M5 | | |]; subst; clear M4.
  inversion M5 as [| | | | ? ? ? ? ? ? ? ? Mc M6 | | |]; subst; clear M5.
  inversion M6 as [| | | | ? ? ? ? ? ? ? ? Mw M7 | | |]; subst; clear M6.
  inversion M7 as [| | | | ? ? ? ? ? ? ? ? MI M8 | | |]; subst; clear M7.
  inversion M8 as [| | | | ? ? ? ? ? ? ? ? Mc2 M9 | | |]; subst; clear M8.
  inversion M9 as [| | | | ? ? ? ? ? ? ? ? MM M10 | | |]; subst; clear M9.
  inversion M10 as [| | | | ? ? ? ? ? ? ? ? Mw2 Mp | | |]; subst; clear M10.
  inversion Md as [| | | | | | |? ? ? ? ? Md']; subst; clear Md.
  inversion Mm as [| | | | | | |? ? ? ? ? Mm']; subst; clear Mm.
  inversion My as [| | | | | | |? ? ? ? ? My']; subst; clear My.
  inversion MI as [| | | | | | |? ? ? ? ? MI']; subst; clear MI.
  inversion MM as [| | | | | | |? ? ? ? ? MM']; subst; clear MM.
  inversion Mp as [| | | | | | |? ? ? ? ? Mp']; subst; clear Mp.
  inversion Ms1; subst. inversion Ms2; subst. inversion Mc; subst.
  inversion Mc2; subst. inversion Mw; subst. inversion Mw2; subst.
  repeat match goal with
         | H : Re.matches _ _ _ _ ?g |- _ =>
             is_var g;
             let E := fresh in
             assert (E : g = [])
               by (apply (ReFacts.groupless_matches H); reflexivity);
             subst g
         end.
  match goal with
  | E : _ = [gd; gm; gy; gI; gM; gp] |- _ =>
      simpl in E; inversion E; subst; clear E
  end.
  revert H.
  destruct (one_to_twelve Mm') as (mo & -> & Hmo).
  destruct (two_digits My') as (y2 & -> & Hy2).
  destruct (one_to_twelve MI') as (h12 & -> & Hh12).
  destruct (up_to_fifty_nine MM') as (mi & -> & Hmi).
  destruct (negb _); [discriminate|].
  destruct (Unicode.int (strip gd)) as [dd|]; [|discriminate].
  destruct ((1 <=? dd) && _) eqn:V; [|discriminate].
  intros H. inversion H; subst dt; clear H. unfold valid_datetime. simpl.
  apply andb_prop in V as [V1 V2]. apply N.leb_le in V1, V2.
  pose proof (days_in_month_le
                (if y2 <=? 68 then y2 + 2000 else y2 + 1900) mo) as D.
  repeat split; try lia.
  - destruct (N.leb_spec y2 68); lia.
  - destruct (N.leb_spec y2 68); lia.
  - destruct (list_eq_dec _ _ _); destruct (N.eqb_spec h12 12); lia.
Qed.

(** X12: with the [strptime] of the standard library, every timestamp in
    the output is a date of the calendar between 1969 and 2068 (the day
    exists in its month) and a time of the clock (hour below 24, minute
    below 60). *)
Theorem X12_timestamps_valid (lines : list str) (m : Message)
        (dt : DateTime) :
  In m (parse_lines Strptime.strptime lines) -> datetime m = Some dt ->
  valid_datetime dt.
Proof.
  rewrite parse_lines_blocks. intros Hm Hd.
  apply in_map_iff in Hm as (b & <- & _).
  destruct (block_message_fields Strptime.strptime b) as [_ D].
  cbv zeta in D. rewrite D in Hd. exact (strptime_valid _ Hd).
Qed.

Lemma X12_timestamps_valid_witness :
  valid_datetime (mkDateTime 2021 11 8 19 59).
Proof.
  apply (@X12_timestamps_valid [scenario_A]
           (mkMessage (Some (mkDateTime 2021 11 8 19 59)) (u "08/11/21")
                      (u "7:59 pm") (u "Ananya") (u "Hello there")));
    [now left | reflexivity].
Defined.

(** ** [detect_script] on texts of one kind *)

(** X13: a text that is not empty and has no character of the range
    U+0900..U+097F is tagged ['english'], whatever its length. *)
Theorem X13_no_hindi_english (text : str) :
  text <> [] -> forallb (fun c => negb (is_hindi c)) text = true ->
  detect_script text = Some "english"%string.
Proof.
  intros Hne H. unfold detect_script.
  assert (E : filter is_hindi text = []).
  { clear Hne. induction text as [|c text IH]; simpl in *; [reflexivity|].
    apply andb_prop in H as [Hc H]. apply negb_true_iff in Hc.
    rewrite Hc. now apply IH. }
  rewrite E. simpl length.
  destruct (Z.eqb_spec (Z.of_nat (length text)) 0) as [E0|N0].
  - destruct text; [contradiction|simpl in E0; lia].
  - unfold Binary64.true_div.
    destruct (Z.eqb_spec (Z.of_nat (length text)) 0) as [E0|_];
      [contradiction|].
    reflexivity.
Qed.

Lemma X13_no_hindi_english_witness :
  detect_script (u "<Media omitted>") = Some "english"%string.
Proof.
  apply (@X13_no_hindi_english (u "<Media omitted>"));
    [discriminate | reflexivity].
Defined.

(** X14: a text, not empty and of less than [2^52] characters, made only
    of characters of the range U+0900..U+097F is tagged ['hindi-heavy']. *)
Theorem X14_all_hindi_heavy (text : str) :
  text <> [] -> (Z.of_nat (length text) < 2 ^ 52)%Z ->
  forallb is_hindi text = true ->
  detect_script text = Some "hindi-heavy"%string.
Proof.
  intros Hne Hlen H. unfold detect_script.
  assert (E : filter is_hindi text = text).
  { clear Hne Hlen. induction text as [|c text IH]; simpl in *; [reflexivity|].
    apply andb_prop in H as [Hc H]. rewrite Hc. f_equal. now apply IH. }
  rewrite E.
  assert (Ht : (0 < Z.of_nat (length text))%Z)
    by (destruct text; [contradiction|simpl; lia]).
  destruct (Z.eqb_spec (Z.of_nat (length text)) 0) as [|_]; [lia|].
  unfold Binary64.true_div.
  destruct (Z.eqb_spec (Z.of_nat (length text)) 0) as [|_]; [lia|].
  rewrite Binary64Facts.gt_0_3_exact by lia.
  destruct (Z.ltb_spec (3 * Z.of_nat (length text))
                       (10 * Z.of_nat (length text))); [reflexivity|lia].
Qed.

Lemma X14_all_hindi_heavy_witness :
  detect_script [0x0928; 0x092E; 0x0938; 0x094D; 0x0924; 0x0947]
  = Some "hindi-heavy"%string.
Proof.
  apply (@X14_all_hindi_heavy [0x0928; 0x092E; 0x0938; 0x094D; 0x0924; 0x0947]);
    [discriminate | reflexivity | reflexivity].
Defined.

(** ** The rows of [sample_messages_by_period] *)

(** X15: the text shown for a message is never longer than 63
    characters, and starts with the first 60 characters of the message:
    a message of at most 60 characters is shown whole, a longer one is
    cut to 60 characters and three dots. *)
Theorem X15_row_msg_bounded (message : str) :
  (length (row_msg message) <= 63)%nat
  /\ firstn 60 (row_msg message) = firstn 60 message
  /\ length (row_msg message)
     = (if (60 <? length message)%nat then 63 else length message)%nat.
Proof.
  unfold row_msg. destruct (Nat.ltb_spec 60 (length message)) as [H|H].
  - assert (L : length (firstn 60 message) = 60%nat)
      by (rewrite length_firstn; lia).
    rewrite length_app, L. change (length (u "...")) with 3%nat.
    split; [lia|]. split; [|lia].
    rewrite firstn_app, L, Nat.sub_diag, firstn_O, app_nil_r, firstn_firstn.
    now rewrite Nat.min_id.
  - split; [lia|]. split; reflexivity.
Qed.

Lemma split_words_open (s : str) :
  forall cur, cur <> [] ->
    exists w rest tail,
      split_words cur s = (rev cur ++ w) :: rest
      /\ forallb (fun c => negb (Unicode.isspace c)) w = true
      /\ s = w ++ tail.
Proof.
  induction s as [|c s IH]; intros cur Hcur; simpl.
  - exists [], [], []. rewrite app_nil_r.
    destruct cur; [contradiction|]. auto.
  - destruct (Unicode.isspace c) eqn:Hc.
    + exists [], (split_words [] s), (c :: s). rewrite app_nil_r.
      destruct cur; [contradiction|]. auto.
    + destruct (IH (c :: cur)) as (w & rest & tail & E & Hw & ->);
        [discriminate|].
      exists (c :: w), rest, tail. simpl in *. rewrite Hc, Hw.
      rewrite <- app_assoc in E. auto.
Qed.

(** The first word of a string that starts with a character that is not
    whitespace. *)
Lemma row_sender_word (c : char) (r : str) :
  Unicode.isspace c = false ->
  exists w tail,
    row_sender (c :: r) = Some (c :: w)
    /\ forallb (fun c => negb (Unicode.isspace c)) w = true
    /\ r = w ++ tail.
Proof.
  intros Hc. unfold row_sender, split. simpl. rewrite Hc.
  destruct (@split_words_open r [c]) as (w & rest & tail & E & Hw & Et);
    [discriminate|].
  rewrite E. simpl. eauto.
Qed.

(** X16: on the sender of a message of the output, taking the first name
    raises [IndexError] exactly when the sender is empty; otherwise the
    first name is not empty, has no whitespace, and starts the sender. *)
Theorem X16_row_sender (strptime : str -> option DateTime)
        (lines : list str) :
  Forall (fun m =>
            (row_sender (sender m) = None <-> sender m = [])
            /\ forall w, row_sender (sender m) = Some w ->
                 w <> []
                 /\ forallb (fun c => negb (Unicode.isspace c)) w = true
                 /\ exists tail, sender m = w ++ tail)
         (parse_lines strptime lines).
Proof.
  rewrite parse_lines_blocks. apply Forall_forall. intros m Hm.
  apply in_map_iff in Hm as (b & <- & _).
  destruct (block_message_fields strptime b) as [F _]. cbv zeta in F.
  unfold header_fields in F.
  destruct (header_groups (fst b)) as [[[d t] sn] tx].
  inversion F as [[F1 F2 F3]]. rewrite F3. clear F F1 F2 F3.
  destruct (strip sn) as [|c r] eqn:E.
  - split; [split; reflexivity|]. intros w H. discriminate.
  - pose proof (@strip_first _ _ _ E) as Hc.
    destruct (@row_sender_word c r Hc) as (w0 & tail & -> & Hw & ->).
    split; [split; discriminate|].
    intros w H. inversion H; subst w. split; [discriminate|].
    split; [simpl; now rewrite Hc, Hw|]. now exists tail.
Qed.

(** ** The path of the output file *)

Lemma replace_absent (old new s : str) :
  occurs old s = false -> replace_from old new 0 s = s.
Proof.
  induction s as [|c s IH]; [reflexivity|].
  simpl occurs. intros H. apply orb_false_iff in H as [H1 H2].
  cbn [replace_from]. rewrite H1. f_equal. now apply IH.
Qed.

Lemma is_prefix_length (old s : str) :
  is_prefix old s = true -> (length old <= length s)%nat.
Proof.
  revert s. induction old as [|a old IH]; intros [|b s] H; simpl in *;
    try lia; try discriminate.
  apply andb_prop in H as [_ H]. apply IH in H. lia.
Qed.

(** No occurrence of ".txt" starts in a stem and ends in a ".txt" put
    after the stem. *)
Lemma is_prefix_txt (c : char) (s : str) :
  is_prefix (u ".txt") (c :: s ++ u ".txt") = is_prefix (u ".txt") (c :: s).
Proof.
  change (u ".txt") with [46; 116; 120; 116].
  destruct s as [|c2 [|c3 [|c4 r]]]; simpl;
    repeat rewrite andb_false_r; reflexivity.
Qed.

Lemma replace_txt_suffix (stem : str) :
  forall skip, (skip <= length stem)%nat ->
    replace_from (u ".txt") (u "_parsed.csv") skip (stem ++ u ".txt")
    = replace_from (u ".txt") (u "_parsed.csv") skip stem ++ u "_parsed.csv".
Proof.
  induction stem as [|c stem IH]; intros skip Hs.
  - simpl in Hs. assert (skip = 0%nat) as -> by lia. reflexivity.
  - destruct skip as [|k].
    + change ((c :: stem) ++ u ".txt") with (c :: stem ++ u ".txt").
      cbn [replace_from]. rewrite is_prefix_txt.
      destruct (is_prefix (u ".txt") (c :: stem)) eqn:P.
      * apply is_prefix_length in P. simpl in P.
        rewrite IH by (simpl; lia). now rewrite app_assoc.
      * rewrite IH by lia. reflexivity.
    + simpl in Hs. simpl. apply IH. lia.
Qed.

(** X17: a path in which ".txt" does not occur is its own output path:
    the second CSV file is written to the path of the chat file. *)
Theorem X17_output_file_same (file_path : str) :
  occurs (u ".txt") file_path = false -> output_file file_path = file_path.
Proof. intros H. unfold output_file, replace. now apply replace_absent. Qed.

Lemma X17_output_file_same_witness :
  output_file (u "NAP_chat.TXT") = u "NAP_chat.TXT".
Proof. apply (@X17_output_file_same (u "NAP_chat.TXT")). reflexivity. Defined.

(** X18: for a path that ends in ".txt", the output path is that of the
    stem followed by "_parsed.csv"; when ".txt" does not occur in the
    stem, it is the stem followed by "_parsed.csv". *)
Theorem X18_output_file_txt (stem : str) :
  output_file (stem ++ u ".txt") = output_file stem ++ u "_parsed.csv"
  /\ (occurs (u ".txt") stem = false ->
      output_file (stem ++ u ".txt") = stem ++ u "_parsed.csv").
Proof.
  assert (E : output_file (stem ++ u ".txt")
              = output_file stem ++ u "_parsed.csv")
    by (apply replace_txt_suffix; lia).
  split; [exact E|].
  intros H. rewrite E. unfold output_file, replace.
  now rewrite replace_absent.
Qed.

Lemma X18_output_file_txt_witness :
  output_file (u "NAP_chat" ++ u ".txt") = u "NAP_chat" ++ u "_parsed.csv".
Proof.
  apply (proj2 (X18_output_file_txt (u "NAP_chat"))). reflexivity.
Defined.

(** ** Parsing what was parsed *)

Lemma universal_newlines_other (c : char) (s : str) :
  c <> 13 -> universal_newlines (c :: s) = c :: universal_newlines s.
Proof.
  intros Hc. destruct c as [|p]; [reflexivity|].
  do 4 (destruct p as [p|p|]; try reflexivity). now elim Hc.
Qed.

Lemma universal_newlines_cr (c : char) (s : str) :
  c <> 10 -> universal_newlines (13 :: c :: s) = 10 :: universal_newlines (c :: s).
Proof.
  intros Hc. destruct c as [|p]; [reflexivity|].
  do 4 (destruct p as [p|p|]; try reflexivity). now elim Hc.
Qed.

Lemma universal_newlines_id (s : str) : ~ In 13 s -> universal_newlines s = s.
Proof.
  induction s as [|c s IH]; intros H; [reflexivity|].
  rewrite universal_newlines_other by (intros ->; apply H; now left).
  f_equal. apply IH. intros Hin. apply H. now right.
Qed.

Lemma universal_newlines_no_cr (s : str) : ~ In 13 (universal_newlines s).
Proof.
  remember (length s) as n eqn:L. revert s L.
  induction n as [n IH] using lt_wf_ind. intros s L.
  destruct s as [|c s]; [simpl; auto|].
  destruct (N.eq_dec c 13) as [->|Hc].
  - destruct s as [|c' s]; [simpl; intros [E|[]]; discriminate|].
    destruct (N.eq_dec c' 10) as [->|Hc'].
    + change (universal_newlines (13 :: 10 :: s))
        with (10 :: universal_newlines s).
      intros [E|H]; [discriminate|].
      apply (IH (length s)) in H; auto. simpl in L. lia.
    + rewrite universal_newlines_cr by exact Hc'.
      intros [E|H]; [discriminate|].
      apply (IH (length (c' :: s))) in H; auto. simpl in *. lia.
  - rewrite universal_newlines_other by exact Hc.
    intros [E|H]; [congruence|].
    apply (IH (length s)) in H; auto. simpl in L. lia.
Qed.

Lemma readlines_no_cr (text l : str) : In l (readlines text) -> ~ In 13 l.
Proof.
  intros Hl Hin. apply (universal_newlines_no_cr text).
  unfold readlines in Hl.
  rewrite <- (app_nil_l (universal_newlines text)).
  change (@nil char) with (rev (@nil char)).
  rewrite <- split_keepends_concat. apply in_concat. now exists l.
Qed.

Lemma split_newline_cons (s : str) : exists x r, split_newline s = x :: r.
Proof.
  induction s as [|c s (x & r & E)]; simpl; [now eauto|].
  destruct (c =? 10); [now eauto|]. rewrite E. now eauto.
Qed.

(** The two ways to cut a text into lines give the same lines to the
    loop. *)
Lemma significant_split (s : str) :
  forall cur,
    significant (split_keepends cur s)
    = significant (match split_newline s with
                   | x :: r => (rev cur ++ x) :: r
                   | [] => []
                   end).
Proof.
  unfold significant.
  induction s as [|c s IH]; intros cur.
  - simpl. rewrite app_nil_r. destruct cur as [|x cur]; reflexivity.
  - simpl split_keepends. simpl split_newline.
    destruct (N.eqb_spec c 10) as [->|Hc].
    + simpl. rewrite app_nil_r, strip_trailing by reflexivity.
      rewrite (IH []). destruct (split_newline_cons s) as (x & r & ->).
      reflexivity.
    + rewrite (IH (c :: cur)).
      destruct (split_newline_cons s) as (x & r & ->).
      simpl. now rewrite <- app_assoc.
Qed.

Lemma header_text_app (d t sn a b : str) (w1 w2 w3 w4 : char) :
  header_text d t sn (a ++ b) w1 w2 w3 w4
  = header_text d t sn a w1 w2 w3 w4 ++ b.
Proof.
  unfold header_text. simpl. repeat (rewrite <- app_assoc; simpl).
  reflexivity.
Qed.

Lemma header_text_In (d t sn tx : str) (c : char) :
  In c (header_text d t sn tx (ch " ") (ch " ") (ch " ") (ch " ")) ->
  In c d \/ In c t \/ In c sn \/ In c tx \/ In c (u ",- :").
Proof.
  unfold header_text. intros H.
  repeat (apply in_app_or in H as [H|H]); auto.
  - right; right; right; right. simpl in *. intuition.
  - right; right; right; right. simpl in *. intuition.
  - right; right; right; right. simpl in *. intuition.
Qed.

Lemma groups_In (s d t sn tx : str) (c : char) :
  header_match s = Some (d, t, sn, tx) ->
  In c d \/ In c t \/ In c sn \/ In c tx -> In c s.
Proof.
  intros H Hin.
  apply header_match_shape in H as (w1 & w2 & w3 & w4 & tail & -> & _).
  destruct Hin as [Hin|[Hin|[Hin|Hin]]].
  - apply in_or_app. now left.
  - apply in_or_app. right. apply in_or_app. right.
    apply in_or_app. now left.
  - do 4 (apply in_or_app; right). apply in_or_app. now left.
  - do 6 (apply in_or_app; right). apply in_or_app. now left.
Qed.

Lemma continuation_In (cs : list str) (c : char) :
  In c (continuation cs) ->
  c = 10 \/ exists l, In l cs /\ In c (strip l).
Proof.
  unfold continuation. intros H.
  apply in_concat in H as (x & Hx & Hc).
  apply in_map_iff in Hx as (l & <- & Hl).
  apply filter_In in Hl as [Hl _].
  destruct Hc as [E|Hc]; [now left|]. right. now exists l.
Qed.

Lemma sender_fullmatch (s : str) :
  s <> [] -> no_colon s -> Re.fullmatch sender_re s = true.
Proof.
  intros Hne Hc. apply ReComplete.fullmatch_complete; [reflexivity|].
  exists 0%nat, [], []. apply Re.m_rep.
  - apply forallb_forall. intros c Hin.
    unfold no_colon in Hc. rewrite Forall_forall in Hc.
    specialize (Hc c Hin). unfold Re.none_of, Re.one_of. simpl.
    destruct (N.eqb_spec c 58); [contradiction|reflexivity].
  - destruct s; [contradiction|simpl; lia].
  - discriminate.
Qed.

Lemma text_fullmatch (s : str) :
  s <> [] -> ~ In 10 s -> Re.fullmatch text_re s = true.
Proof.
  intros Hne Hc. apply ReComplete.fullmatch_complete; [reflexivity|].
  exists 0%nat, [], []. apply Re.m_rep.
  - apply forallb_forall. intros c Hin. unfold Re.dot.
    destruct (N.eqb_spec c 10) as [->|]; [contradiction|reflexivity].
  - destruct s; [contradiction|simpl; lia].
  - discriminate.
Qed.

Lemma not_header_strip (l : str) : not_header (strip l) = not_header l.
Proof. unfold not_header, is_header. now rewrite strip_idem. Qed.

Lemma significant_not_header (cs : list str) :
  forallb not_header cs = true ->
  forallb not_header (significant cs) = true.
Proof.
  unfold significant. induction cs as [|c cs IH]; simpl; [reflexivity|].
  intros H. apply andb_true_iff in H as [H1 H2].
  destruct (truthy (strip c)); simpl; auto.
  now rewrite not_header_strip, H1, IH.
Qed.

Lemma blocks_no_header (cs : list str) :
  forallb not_header cs = true -> blocks cs = (cs, []).
Proof.
  intros H. pose proof (blocks_app_noise cs [] H) as E.
  simpl in E. now rewrite !app_nil_r in E.
Qed.

Section Reparse.

Variable strptime : str -> option DateTime.

(** The loop sees the significant lines only. *)
Lemma parse_lines_significant (lines : list str) :
  parse_lines strptime (significant lines) = parse_lines strptime lines.
Proof.
  unfold parse_lines, significant.
  generalize (None : option Message, [] : list Message).
  induction lines as [|l lines IH]; intros st; simpl; [reflexivity|].
  destruct (strip l) as [|x r] eqn:E; simpl.
  - rewrite (@loop_body_blank strptime st l E). apply IH.
  - rewrite IH, <- E, loop_body_strip. reflexivity.
Qed.

Lemma continue_significant (cs : list str) :
  forall m, fold_left continue_with (significant cs) m
            = fold_left continue_with cs m.
Proof.
  unfold significant.
  induction cs as [|c cs IH]; intros m; simpl; [reflexivity|].
  destruct (strip c) as [|x r] eqn:E; simpl.
  - rewrite IH. f_equal. unfold continue_with. now rewrite E.
  - rewrite IH. f_equal. unfold continue_with, append_line.
    rewrite <- E, strip_idem. reflexivity.
Qed.

(** A block of a file, rendered and read again, is one block with the
    same message. *)
Lemma block_rendered (text : str) (b : block) :
  In b (snd (blocks (readlines text))) ->
  sender (block_message strptime b) <> [] ->
  messages strptime (render (block_message strptime b))
  = [block_message strptime b].
Proof.
  intros Hb Hs.
  pose proof (blocks_In_ok _ _ Hb) as [Hh Hcs].
  assert (Hl : forall l, In l (block_lines b) -> In l (readlines text))
    by (intros l; apply (blocks_lines_In _ Hb)).
  assert (N10 : forall l, In l (block_lines b) -> ~ In 10 (strip l))
    by (intros l Hin; apply readlines_no_newline with (text := text); auto).
  assert (N13 : forall l, In l (block_lines b) -> ~ In 13 (strip l)).
  { intros l Hin H13. apply strip_In in H13.
    exact (@readlines_no_cr text l (Hl l Hin) H13). }
  unfold block_message in *. destruct b as [h cs]. simpl fst in *.
  simpl snd in *.
  unfold is_header in Hh. unfold header_groups in *.
  destruct (header_match (strip h)) as [[[[d t] sn] tx]|] eqn:H;
    [|discriminate].
  pose proof (@header_text_nonblank _ _ _ _ _ H) as Htx.
  pose proof (@header_match_shape _ _ _ _ _ H)
    as (w1 & w2 & w3 & w4 & tail & _ & Hd & Ht & Hsn & _).
  set (m0 := new_message strptime (d, t, sn, tx)) in *.
  destruct (continue_fields cs m0) as (F0 & F1 & F2 & F3).
  cbv zeta in F0, F1, F2, F3.
  pose proof (continue_body cs m0) as F4.
  set (m := fold_left continue_with cs m0) in *.
  change (datetime m0) with (strptime (d ++ u ", " ++ t)) in F0.
  change (date m0) with d in F1. change (time m0) with t in F2.
  change (sender m0) with (strip sn) in F3.
  change (message m0) with (strip tx) in F4.
  (* the header line of the rendered text *)
  set (H0 := header_text d t (strip sn) (strip tx)
                         (ch " ") (ch " ") (ch " ") (ch " ")).
  assert (R : render m = H0 ++ continuation cs).
  { unfold render. rewrite F1, F2, F3, F4. apply header_text_app. }
  assert (Hin : forall c, In c H0 -> In c (strip h) \/ In c (u ",- :")).
  { intros c Hc. apply header_text_In in Hc.
    destruct Hc as [Hc|[Hc|[Hc|[Hc|Hc]]]]; auto; left;
      apply (@groups_In (strip h) d t sn tx c H); auto.
    - right; right; left. now apply strip_In.
    - right; right; right. now apply strip_In. }
  assert (H10 : ~ In 10 H0).
  { intros Hc. apply Hin in Hc as [Hc|Hc].
    - apply (N10 h); [now left | exact Hc].
    - simpl in Hc. intuition discriminate. }
  assert (H13 : ~ In 13 (render m)).
  { rewrite R. intros Hc. apply in_app_or in Hc as [Hc|Hc].
    - apply Hin in Hc as [Hc|Hc].
      + apply (N13 h); [now left | exact Hc].
      + simpl in Hc. intuition discriminate.
    - apply continuation_In in Hc as [Hc|(l & Hl' & Hc)]; [discriminate|].
      apply (N13 l); [now right | exact Hc]. }
  assert (Fd : Re.fullmatch date_re d = true)
    by now apply ReComplete.fullmatch_complete.
  assert (Ft : Re.fullmatch time_re t = true)
    by now apply ReComplete.fullmatch_complete.
  assert (Fs : Re.fullmatch sender_re (strip sn) = true).
  { apply sender_fullmatch; [now rewrite <- F3|].
    apply no_colon_strip. now apply sender_token in Hsn. }
  assert (Fx : Re.fullmatch text_re (strip tx) = true).
  { apply text_fullmatch; [exact Htx|]. intros Hc. apply H10.
    unfold H0, header_text. do 6 (apply in_or_app; right). exact Hc. }
  assert (G : header_match (strip H0) = Some (d, t, strip sn, strip tx)).
  { unfold H0.
    rewrite (@header_text_tight d t (strip sn) (strip tx) (ch " ") (ch " ")
               (ch " ") (ch " ") Fd Fx (rstrip_strip tx)).
    now apply header_match_exact. }
  (* the lines of the rendered text *)
  unfold messages, readlines.
  rewrite universal_newlines_id by exact H13.
  rewrite <- parse_lines_significant, significant_split.
  simpl rev. rewrite R.
  rewrite split_continuation;
    [| apply Forall_forall; intros l Hl'; apply N10; now right | exact H10].
  simpl app. rewrite parse_lines_significant, parse_lines_blocks.
  rewrite blocks_header by (unfold is_header; now rewrite G).
  fold (significant cs).
  rewrite (@blocks_no_header _ (@significant_not_header cs Hcs)).
  simpl. f_equal. unfold block_message. simpl fst. simpl snd.
  unfold header_groups. rewrite G, continue_significant.
  fold m0.
  replace (new_message strptime (d, t, strip sn, strip tx)) with m0;
    [reflexivity|].
  unfold m0, new_message. now rewrite !strip_idem.
Qed.

(** X19: what the loop gives can be given back to it: a message of the
    list whose sender is not empty, written in the line format with its
    body below, gives that one message as the list of the loop.  The call
    then returns the frame of that one row when the message has a
    timestamp, and raises [AttributeError] when it has none. *)
Theorem X19_render_reparsed (text : str) (m : Message) :
  In m (messages strptime text) -> sender m <> [] ->
  messages strptime (render m) = [m]
  /\ parse_whatsapp_chat strptime (render m)
     = (if is_datetime m
        then Returned (mkDataFrame (message_keys ++ added_columns)
                                   [add_columns m])
        else Raised AttributeError).
Proof.
  unfold messages at 1. rewrite parse_lines_blocks.
  intros Hm Hs. apply in_map_iff in Hm as (b & <- & Hb).
  pose proof (@block_rendered text b Hb Hs) as E.
  split; [exact E|].
  unfold parse_whatsapp_chat. rewrite E. unfold data_frame. simpl.
  now destruct (is_datetime (block_message strptime b)).
Qed.

(** X20: the classifier never answers ['other'] on a message of the
    output, and the division it makes never fails there: the body of a
    message is not empty. *)
Theorem X20_parsed_never_other (lines : list str) :
  Forall (fun m => detect_script (message m) = Some "hindi-heavy"%string
                   \/ detect_script (message m) = Some "hinglish"%string
                   \/ detect_script (message m) = Some "english"%string)
         (parse_lines strptime lines).
Proof.
  rewrite parse_lines_blocks. apply Forall_forall. intros m Hm.
  apply in_map_iff in Hm as (b & <- & Hb).
  apply blocks_In_ok in Hb as [Hh _].
  unfold block_message.
  unfold is_header, header_groups in *.
  destruct (header_match (strip (fst b))) as [[[[d t] sn] tx]|] eqn:H;
    [|discriminate].
  pose proof (@header_text_nonblank _ _ _ _ _ H) as Htx.
  destruct (@continue_tight (snd b) (new_message strptime (d, t, sn, tx)))
    as [H1 _]; [exact Htx | apply strip_idem |].
  destruct (message _) as [|c text]; [contradiction|].
  unfold detect_script.
  destruct (Z.eqb_spec (Z.of_nat (length (c :: text))) 0) as [E|_];
    [simpl in E; lia|].
  unfold Binary64.true_div.
  destruct (Z.eqb_spec (Z.of_nat (length (c :: text))) 0) as [E|_];
    [simpl in E; lia|].
  destruct (Binary64.gtb _ (Binary64.literal 3 1)); [now left|].
  destruct (Binary64.gtb _ (Binary64.literal 5 2)); [right; now left|].
  right; now right.
Qed.

End Reparse.

Lemma X19_render_reparsed_witness :
  let m := mkMessage (Some (mkDateTime 2021 11 8 19 59)) (u "08/11/21")
                     (u "7:59 pm") (u "Ananya")
                     (u "Line one" ++ [ch "010"] ++ u "Line two") in
  messages Strptime.strptime (render m) = [m]
  /\ parse_whatsapp_chat Strptime.strptime (render m)
     = (if is_datetime m
        then Returned (mkDataFrame (message_keys ++ added_columns)
                                   [add_columns m])
        else Raised AttributeError).
Proof.
  apply (@X19_render_reparsed Strptime.strptime indented_transcript
           (mkMessage (Some (mkDateTime 2021 11 8 19 59)) (u "08/11/21")
                      (u "7:59 pm") (u "Ananya")
                      (u "Line one" ++ [ch "010"] ++ u "Line two")));
    [now left | discriminate].
Defined.
